(** * Conway's Game of Life on the Badger 2040 (badger_os/examples/conway.py)

    A shallow embedding of the automaton engine of [conway.py]: the two grid
    buffers, the pattern library, [clear_grid], [load_pattern],
    [count_neighbors], [update_game], the button handling of the main loop and
    the start-up sequence, followed by the properties proved about them.

    Python values are modelled as the code has them: cells are integers
    ([0] dead, [1] alive), a grid is a list of rows, list indexing follows
    Python (negative indices wrap once, anything else out of range raises),
    an exception is the [None] of the option monad, and the results of
    [random.random()] are floats compared with the float [0.4]. The globals
    of the module are threaded through every function as one record. *)

From Stdlib Require Import ZArith List Bool Lia PrimFloat.
From stdpp Require Import base option list strings pretty.

Open Scope Z_scope.
#[local] Set Warnings "-inexact-float".

(** ** Python lists *)

(** The position a Python index designates in a list of [len] elements:
    [0 <= i < len] is itself, [-len <= i < 0] counts from the end, and any
    other index is an [IndexError]. *)
Definition py_index (len : nat) (i : Z) : option nat :=
  if bool_decide (0 ≤ i < Z.of_nat len) then Some (Z.to_nat i)
  else if bool_decide (- Z.of_nat len ≤ i < 0) then Some (Z.to_nat (Z.of_nat len + i))
  else None.

(** [l[i]] *)
Definition getitem {A} (l : list A) (i : Z) : option A :=
  k ← py_index (length l) i; l !! k.

(** [l[i] = v] *)
Definition setitem {A} (l : list A) (i : Z) (v : A) : option (list A) :=
  k ← py_index (length l) i; Some (<[k:=v]> l).

(** [range(n)] *)
Definition range (n : Z) : list Z := Z.of_nat <$> seq 0 (Z.to_nat n).

(** [for a in l: s = body a s], stopping at the first exception. *)
Fixpoint for_in {A St} (l : list A) (body : A → St → option St) (s : St) : option St :=
  match l with
  | [] => Some s
  | a :: l' => s' ← body a s; for_in l' body s'
  end.

(** ** Grids *)

Definition DEAD : Z := 0.
Definition ALIVE : Z := 1.

Abbreviation Grid := (list (list Z)).

(** [grid[y][x]] *)
Definition grid_get (g : Grid) (x y : Z) : option Z :=
  row ← getitem g y; getitem row x.

(** [grid[y][x] = v]: the row object is fetched and updated in place. *)
Definition grid_set (g : Grid) (x y : Z) (v : Z) : option Grid :=
  row ← getitem g y; row' ← setitem row x v; setitem g y row'.

(** ** The pattern library *)

Record Pattern := { name : string; cells : list (Z * Z) }.

Definition patterns : list Pattern :=
  [ {| name := "R-pentomino";
       cells := [(1, 0); (2, 0); (0, 1); (1, 1); (1, 2)] |};
    {| name := "Acorn";
       cells := [(1, 0); (3, 1); (0, 2); (1, 2); (4, 2); (5, 2); (6, 2)] |};
    {| name := "Diehard";
       cells := [(6, 0); (0, 1); (1, 1); (1, 2); (5, 2); (6, 2); (7, 2)] |};
    {| name := "Glider Gun";
       cells := [ (0, 4); (0, 5); (1, 4); (1, 5);
                  (10, 4); (10, 5); (10, 6); (11, 3); (11, 7); (12, 2); (12, 8);
                  (13, 2); (13, 8); (14, 5); (15, 3); (15, 7); (16, 4); (16, 5); (16, 6);
                  (17, 5);
                  (20, 2); (20, 3); (20, 4); (21, 2); (21, 3); (21, 4); (22, 1); (22, 5);
                  (24, 0); (24, 1); (24, 5); (24, 6);
                  (34, 2); (34, 3); (35, 2); (35, 3) ] |};
    {| name := "B-heptomino";
       cells := [(1, 0); (2, 0); (0, 1); (1, 1); (1, 2); (2, 2); (3, 2)] |};
    {| name := "Spaceship";
       cells := [(0, 1); (3, 1); (4, 2); (0, 3); (4, 3); (1, 4); (2, 4); (3, 4); (4, 4)] |};
    {| name := "10-cell row";
       cells := [(0, 0); (1, 0); (2, 0); (3, 0); (4, 0); (5, 0); (6, 0); (7, 0); (8, 0); (9, 0)] |};
    {| name := "Pulsar";
       cells := [ (2, 0); (3, 0); (4, 0); (8, 0); (9, 0); (10, 0);
                  (0, 2); (5, 2); (7, 2); (12, 2);
                  (0, 3); (5, 3); (7, 3); (12, 3);
                  (0, 4); (5, 4); (7, 4); (12, 4);
                  (2, 5); (3, 5); (4, 5); (8, 5); (9, 5); (10, 5);
                  (2, 7); (3, 7); (4, 7); (8, 7); (9, 7); (10, 7);
                  (0, 8); (5, 8); (7, 8); (12, 8);
                  (0, 9); (5, 9); (7, 9); (12, 9);
                  (0, 10); (5, 10); (7, 10); (12, 10);
                  (2, 12); (3, 12); (4, 12); (8, 12); (9, 12); (10, 12) ] |};
    {| name := "Random"; cells := [] |} ].

(** [len(patterns)] *)
Definition len_patterns : Z := Z.of_nat (length patterns).

(** ** Program state *)

(** The [state] dictionary. *)
Record State := { paused : bool; pattern : Z; generation : Z }.

(** The module's globals: the [state] dictionary, the two grid buffers, the
    number of [random.random()] calls made so far, and the state file kept by
    [badger_os] (absent until the first save). *)
Record World := {
  state : State;
  current_grid : Grid;
  next_grid : Grid;
  rand_calls : nat;
  storage : option State
}.

Definition set_state (s : State) (w : World) : World :=
  {| state := s; current_grid := current_grid w; next_grid := next_grid w;
     rand_calls := rand_calls w; storage := storage w |}.

Definition set_current_grid (g : Grid) (w : World) : World :=
  {| state := state w; current_grid := g; next_grid := next_grid w;
     rand_calls := rand_calls w; storage := storage w |}.

Definition set_pattern (p : Z) (s : State) : State :=
  {| paused := paused s; pattern := p; generation := generation s |}.

Definition set_generation (n : Z) (s : State) : State :=
  {| paused := paused s; pattern := pattern s; generation := n |}.

Definition set_paused (b : bool) (s : State) : State :=
  {| paused := b; pattern := pattern s; generation := generation s |}.

Inductive Button := button_a | button_b | button_c | button_up | button_down.

(** Modelled from the spec: [badger_os.state_load] and [badger_os.state_save]
    are vendor helpers outside this repository; the application "serializes
    {paused flag, pattern index, generation counter} to durable storage and
    restores it at startup". A restored file replaces the defaults; when there
    is none, the defaults are written out. *)
Definition state_load (file : option State) (defaults : State) : State * option State :=
  match file with
  | Some saved => (saved, file)
  | None => (defaults, Some defaults)
  end.

Definition state_save (w : World) : World :=
  {| state := state w; current_grid := current_grid w; next_grid := next_grid w;
     rand_calls := rand_calls w; storage := Some (state w) |}.

(** ** The display *)

(** The calls made on the [display] object, in the order they are made. *)
Inductive DisplayOp :=
  | display_set_pen (pen : Z)
  | display_clear
  | display_rectangle (x y w h : Z)
  | display_line (x1 y1 x2 y2 : Z)
  | display_set_font (font : string)
  | display_text (s : string) (x y wordwrap : Z) (scale : float)
  | display_update.

(** ** Boards used in the examples *)

(** A display of 20 by 45 pixels gives a grid of 5 by 5 cells. *)
Definition SMALL_WIDTH : Z := 20.
Definition SMALL_HEIGHT : Z := 45.

(** The display of the device. *)
Definition BADGER_WIDTH : Z := 296.
Definition BADGER_HEIGHT : Z := 128.

Definition horizontal_blinker : Grid :=
  [ [0; 0; 0; 0; 0];
    [0; 0; 0; 0; 0];
    [0; 1; 1; 1; 0];
    [0; 0; 0; 0; 0];
    [0; 0; 0; 0; 0] ].

Definition vertical_blinker : Grid :=
  [ [0; 0; 0; 0; 0];
    [0; 0; 1; 0; 0];
    [0; 0; 1; 0; 0];
    [0; 0; 1; 0; 0];
    [0; 0; 0; 0; 0] ].

(** Globals of a 5 by 5 game showing the horizontal blinker at generation 7
    of pattern 1, with a scratch buffer left over from an earlier step. *)
Definition blinker_world : World :=
  {| state := {| paused := true; pattern := 1; generation := 7 |};
     current_grid := horizontal_blinker;
     next_grid := vertical_blinker;
     rand_calls := 0;
     storage := None |}.

(** The same game after one step. *)
Definition blinker_world_1 : World :=
  {| state := {| paused := true; pattern := 1; generation := 8 |};
     current_grid := vertical_blinker;
     next_grid := horizontal_blinker;
     rand_calls := 0;
     storage := None |}.

(** The second pattern of the library. *)
Definition acorn : Pattern :=
  {| name := "Acorn";
     cells := [(1, 0); (3, 1); (0, 2); (1, 2); (4, 2); (5, 2); (6, 2)] |}.

(** The random-fill marker, last of the library. *)
Definition random_marker : Pattern := {| name := "Random"; cells := [] |}.

(** The Acorn as it lands on the 5 by 5 grid, placed at (-1, -1): three of
    its seven cells fall outside. *)
Definition acorn_world : World :=
  {| state := {| paused := true; pattern := 1; generation := 7 |};
     current_grid :=
       [ [0; 0; 1; 0; 0];
         [1; 0; 0; 1; 1];
         [0; 0; 0; 0; 0];
         [0; 0; 0; 0; 0];
         [0; 0; 0; 0; 0] ];
     next_grid := vertical_blinker;
     rand_calls := 0;
     storage := None |}.

(** A 2 by 2 block on a 6 by 6 grid (display of 24 by 49 pixels). *)
Definition block : Grid :=
  [ [0; 0; 0; 0; 0; 0];
    [0; 1; 1; 0; 0; 0];
    [0; 1; 1; 0; 0; 0];
    [0; 0; 0; 0; 0; 0];
    [0; 0; 0; 0; 0; 0];
    [0; 0; 0; 0; 0; 0] ].

Definition block_world : World :=
  {| state := {| paused := false; pattern := 0; generation := 0 |};
     current_grid := block;
     next_grid := (λ _, (λ _, 0) <$> range 6) <$> range 6;
     rand_calls := 0;
     storage := None |}.

(** The blinker game after a single step made with button UP: the buffers
    are swapped and the state dictionary is saved. *)
Definition blinker_world_saved : World :=
  {| state := {| paused := true; pattern := 1; generation := 8 |};
     current_grid := vertical_blinker;
     next_grid := horizontal_blinker;
     rand_calls := 0;
     storage := Some {| paused := true; pattern := 1; generation := 8 |} |}.

(** A 5 by 5 game with no live cell. *)
Definition dead_world : World :=
  {| state := {| paused := false; pattern := 0; generation := 3 |};
     current_grid := (λ _, (λ _, 0) <$> range 5) <$> range 5;
     next_grid := horizontal_blinker;
     rand_calls := 0;
     storage := None |}.

(** The first pattern of the library. *)
Definition r_pentomino : Pattern :=
  {| name := "R-pentomino"; cells := [(1, 0); (2, 0); (0, 1); (1, 1); (1, 2)] |}.

(** Globals of the device (a grid of 74 by 25 cells) before the first load. *)
Definition device_world : World :=
  {| state := {| paused := true; pattern := 0; generation := 0 |};
     current_grid := (λ _, (λ _, 0) <$> range 74) <$> range 25;
     next_grid := (λ _, (λ _, 0) <$> range 74) <$> range 25;
     rand_calls := 0;
     storage := None |}.

(** A text measure of 6 pixels per character. *)
Definition six_per_char (s : string) (scale : float) : Z :=
  6 * Z.of_nat (String.length s).

(** The status bar of [device_world] under that measure. *)
Definition device_status_bar : list DisplayOp :=
  [ display_set_pen 15; display_rectangle 0 0 296 25;
    display_set_pen 0; display_line 0 24 296 24;
    display_set_font "sans";
    display_text "R-pentomino" 4 15 296 0.6%float;
    display_text "Gen: 0" 256 15 296 0.6%float;
    display_set_pen 12; display_rectangle 128 2 40 20;
    display_set_pen 0; display_text "PAUSED" 130 15 296 0.8%float ].

(** A stream of draws that alternates below and above the threshold. *)
Definition alternating_draws (k : nat) : float :=
  if Nat.even k then 0.25%float else 0.75%float.

(** ** The engine *)

Section Engine.

(** [badger2040.WIDTH] and [badger2040.HEIGHT], constants of the display
    driver (296 and 128 on the device), and the successive results of
    [random.random()]. *)
Variables WIDTH HEIGHT : Z.
Variable random : nat → float.

Definition UI_HEIGHT : Z := 25.
Definition CELL_SIZE : Z := 4.
Definition GRID_WIDTH : Z := WIDTH `div` CELL_SIZE.
Definition GRID_HEIGHT : Z := (HEIGHT - UI_HEIGHT) `div` CELL_SIZE.

(** [0 <= x < GRID_WIDTH and 0 <= y < GRID_HEIGHT] *)
Definition in_bounds (x y : Z) : bool :=
  (0 <=? x) && (x <? GRID_WIDTH) && (0 <=? y) && (y <? GRID_HEIGHT).

(** [[[0 for _ in range(GRID_WIDTH)] for _ in range(GRID_HEIGHT)]] *)
Definition empty_grid : Grid :=
  (λ _, (λ _, 0) <$> range GRID_WIDTH) <$> range GRID_HEIGHT.

Definition clear_grid (w : World) : option World :=
  g ← for_in (range GRID_HEIGHT) (λ y g,
         for_in (range GRID_WIDTH) (λ x g, grid_set g x y 0) g)
       (current_grid w);
  Some (set_current_grid g w).

(** The random branch of [load_pattern]: one draw per cell, row by row. *)
Definition random_fill (s : Grid * nat) : option (Grid * nat) :=
  for_in (range GRID_HEIGHT) (λ y s,
    for_in (range GRID_WIDTH) (λ x '(g, k),
      g' ← grid_set g x y (if PrimFloat.ltb (random k) 0.4%float then 1 else 0);
      Some (g', S k)) s) s.

(** The [if]/[elif] chain that chooses [offset_x, offset_y]. *)
Definition placement_offset (pattern_name : string) : Z * Z :=
  if String.eqb pattern_name "Glider Gun" then (5, 2)
  else if String.eqb pattern_name "Pulsar" then
    (GRID_WIDTH `div` 2 - 6, GRID_HEIGHT `div` 2 - 6)
  else if String.eqb pattern_name "10-cell row" then
    (GRID_WIDTH `div` 2 - 5, GRID_HEIGHT `div` 3)
  else (GRID_WIDTH `div` 2 - 3, GRID_HEIGHT `div` 2 - 3).

(** [for x, y in pattern["cells"]: ...] *)
Definition stamp (offset_x offset_y : Z) (cs : list (Z * Z)) (g : Grid) : option Grid :=
  for_in cs (λ '(x, y) g,
    let grid_x := offset_x + x in
    let grid_y := offset_y + y in
    if in_bounds grid_x grid_y then grid_set g grid_x grid_y 1 else Some g) g.

Definition load_pattern (pattern_index : Z) (w : World) : option World :=
  w ← clear_grid w;
  pattern ← getitem patterns pattern_index;
  if String.eqb (name pattern) "Random" then
    '(g, k) ← random_fill (current_grid w, rand_calls w);
    Some {| state := state w; current_grid := g; next_grid := next_grid w;
            rand_calls := k; storage := storage w |}
  else
    let '(offset_x, offset_y) := placement_offset (name pattern) in
    g ← stamp offset_x offset_y (cells pattern) (current_grid w);
    Some (set_current_grid g w).

Definition count_neighbors (w : World) (x y : Z) : option Z :=
  for_in [-1; 0; 1] (λ dy count,
    for_in [-1; 0; 1] (λ dx count,
      if (dx =? 0) && (dy =? 0) then Some count
      else
        let nx := x + dx in
        let ny := y + dy in
        if in_bounds nx ny then
          c ← grid_get (current_grid w) nx ny; Some (count + c)
        else Some count) count) 0.

Definition update_game (w : World) : option World :=
  ng ← for_in (range GRID_HEIGHT) (λ y ng,
          for_in (range GRID_WIDTH) (λ x ng,
            neighbors ← count_neighbors w x y;
            current_cell ← grid_get (current_grid w) x y;
            if current_cell =? 1 then
              if (neighbors <? 2) || (3 <? neighbors) then grid_set ng x y 0
              else grid_set ng x y 1
            else
              if neighbors =? 3 then grid_set ng x y 1
              else grid_set ng x y 0) ng)
        (next_grid w);
  Some {| state := set_generation (generation (state w) + 1) (state w);
          current_grid := ng; next_grid := current_grid w;
          rand_calls := rand_calls w; storage := storage w |}.

(** ** The application around the engine *)

(** The [if button_pressed:] block of the main loop: the dispatch on the
    button and the save that follows any press. Drawing is left out: it reads
    the globals and writes none of them. *)
Definition dispatch_button (button_pressed : Button) (w : World) : option World :=
  w' ← match button_pressed with
       | button_a =>
           let w := set_state (set_pattern ((pattern (state w) - 1) `mod` len_patterns) (state w)) w in
           let w := set_state (set_generation 0 (state w)) w in
           load_pattern (pattern (state w)) w
       | button_b =>
           Some (set_state (set_paused (negb (paused (state w))) (state w)) w)
       | button_c =>
           let w := set_state (set_pattern ((pattern (state w) + 1) `mod` len_patterns) (state w)) w in
           let w := set_state (set_generation 0 (state w)) w in
           load_pattern (pattern (state w)) w
       | button_up =>
           if paused (state w) then update_game w else Some w
       | button_down =>
           let w := set_state (set_generation 0 (state w)) w in
           load_pattern (pattern (state w)) w
       end;
  Some (state_save w').

(** The periodic update of the main loop; [elapsed] is the outcome of
    [time.ticks_diff(current_time, last_update) > 500]. *)
Definition tick (elapsed : bool) (w : World) : option World :=
  if negb (paused (state w)) && elapsed then update_game w else Some w.

(** The [state] dictionary as the module creates it. *)
Definition initial_state : State :=
  {| paused := true; pattern := 0; generation := 0 |}.

(** Module start-up, from the creation of the globals to the first
    [load_pattern]; [file] is the state file found on the device. *)
Definition startup (file : option State) : option World :=
  let '(st, file) := state_load file initial_state in
  let st := if len_patterns <=? pattern st then set_pattern 0 st else st in
  load_pattern (pattern st)
    {| state := st; current_grid := empty_grid; next_grid := empty_grid;
       rand_calls := 0; storage := file |}.

(** ** Well-formed grids and reference notions *)

(** A grid has the shape the module gives both buffers: [GRID_HEIGHT] rows of
    [GRID_WIDTH] cells. *)
Definition shape (g : Grid) : Prop :=
  length g = Z.to_nat GRID_HEIGHT ∧
  Forall (λ row : list Z, length row = Z.to_nat GRID_WIDTH) g.

(** Every cell is in one of the two states. *)
Definition binary (g : Grid) : Prop :=
  Forall (Forall (λ c : Z, c = DEAD ∨ c = ALIVE)) g.

Definition wf (w : World) : Prop :=
  shape (current_grid w) ∧ shape (next_grid w) ∧ binary (current_grid w).

#[global] Instance shape_dec (g : Grid) : Decision (shape g).
Proof. unfold shape. apply _. Defined.

#[global] Instance binary_dec (g : Grid) : Decision (binary g).
Proof. unfold binary, DEAD, ALIVE. apply _. Defined.

#[global] Instance wf_dec (w : World) : Decision (wf w).
Proof. unfold wf. apply _. Defined.

(** The cell at [(x, y)] is inside the grid and ALIVE; a position outside the
    grid is not alive. *)
Definition is_alive (g : Grid) (x y : Z) : bool :=
  bool_decide (0 ≤ x < GRID_WIDTH ∧ 0 ≤ y < GRID_HEIGHT ∧ grid_get g x y = Some ALIVE).

(** The eight positions of the Moore neighbourhood of [(x, y)]. *)
Definition moore (x y : Z) : list (Z * Z) :=
  [ (x - 1, y - 1); (x, y - 1); (x + 1, y - 1);
    (x - 1, y);                 (x + 1, y);
    (x - 1, y + 1); (x, y + 1); (x + 1, y + 1) ].

(** The number of ALIVE cells in the Moore neighbourhood. *)
Definition live_neighbors (g : Grid) (x y : Z) : Z :=
  Z.of_nat (length (List.filter (λ p, is_alive g p.1 p.2) (moore x y))).

(** The branch structure of [update_game] on one cell, as a function of the
    cell and its neighbour count. *)
Definition rule (current_cell neighbors : Z) : Z :=
  if current_cell =? 1 then
    if (neighbors <? 2) || (3 <? neighbors) then 0 else 1
  else
    if neighbors =? 3 then 1 else 0.

(** [(x, y)] is the image of one of the offsets [cs] placed at
    [(offset_x, offset_y)], with no wrap-around. *)
Definition stamped (offset_x offset_y : Z) (cs : list (Z * Z)) (x y : Z) : bool :=
  bool_decide ((x - offset_x, y - offset_y) ∈ cs).

(** The outcome of the draw the random fill makes for cell [(x, y)] when [k]
    draws were made before the load: draws go row by row. *)
Definition drawn (k : nat) (x y : Z) : bool :=
  PrimFloat.ltb (random (k + Z.to_nat (y * GRID_WIDTH + x))) 0.4%float.

(** Pattern [p] puts a live cell at [(x, y)]: by a draw below the threshold
    for the random fill ([k] draws were made before the load), by one of its
    offsets placed at its placement offset otherwise. *)
Definition stamped_by (p : Pattern) (k : nat) (x y : Z) : bool :=
  if String.eqb (name p) "Random" then drawn k x y
  else stamped (placement_offset (name p)).1 (placement_offset (name p)).2 (cells p) x y.

(** Loop invariants of the row-by-row loops over the grid. [filled v j i g]:
    the cells of the rows before [j], and of row [j] before column [i], hold
    their final value [v x y]. *)
Definition filled (v : Z → Z → Z) (j i : nat) (g : Grid) : Prop :=
  ∀ x y, in_bounds x y = true →
    y < Z.of_nat j ∨ (y = Z.of_nat j ∧ x < Z.of_nat i) →
    grid_get g x y = Some (v x y).

(** The invariant for a loop state [St] that carries a grid ([grid_of]) and
    more ([aux], indexed by the number of cells done). *)
Definition fill_inv {St} (grid_of : St → Grid) (aux : nat → St → Prop)
    (v : Z → Z → Z) (j i : nat) (s : St) : Prop :=
  shape (grid_of s) ∧ aux (j * Z.to_nat GRID_WIDTH + i)%nat s ∧
  filled v j i (grid_of s).

(** ** Drawing and the main loop *)

(** [display.measure_text], a function of the display driver. *)
Variable measure_text : string → float → Z.

Definition draw_ui (w : World) : option (list DisplayOp) :=
  let ops := [ display_set_pen 15; display_rectangle 0 0 WIDTH 25;
               display_set_pen 0; display_line 0 24 WIDTH 24;
               display_set_font "sans" ] in
  p ← getitem patterns (pattern (state w));
  let pattern_name := name p in
  let ops := ops ++ [display_text pattern_name 4 15 WIDTH 0.6%float] in
  let gen_text := "Gen: " +:+ pretty (generation (state w)) in
  let gen_width := measure_text gen_text 0.6%float in
  let ops := ops ++ [display_text gen_text (WIDTH - gen_width - 4) 15 WIDTH 0.6%float] in
  if paused (state w) then
    let pause_text := "PAUSED" in
    let pause_width := measure_text pause_text 0.8%float in
    Some (ops ++ [ display_set_pen 12;
                   display_rectangle ((WIDTH - pause_width) `div` 2 - 2) 2
                     (pause_width + 4) 20;
                   display_set_pen 0;
                   display_text pause_text ((WIDTH - pause_width) `div` 2) 15 WIDTH
                     0.8%float ])
  else Some ops.

Definition draw_grid (w : World) : option (list DisplayOp) :=
  let ops := [display_set_pen 15; display_clear; display_set_pen 0] in
  let ui_height := 25 in
  ops ← for_in (range GRID_HEIGHT) (λ y ops,
           for_in (range GRID_WIDTH) (λ x ops,
             c ← grid_get (current_grid w) x y;
             if c =? 1 then
               let pixel_x := x * CELL_SIZE in
               let pixel_y := y * CELL_SIZE + ui_height in
               if pixel_y + CELL_SIZE <=? HEIGHT then
                 Some (ops ++ [display_rectangle pixel_x pixel_y
                                 (CELL_SIZE - 1) (CELL_SIZE - 1)])
               else Some ops
             else Some ops) ops) ops;
  ui ← draw_ui w;
  Some (ops ++ ui ++ [display_update]).

(** One pass of the body of [while True:], for the button found pressed (if
    any) and the outcome [elapsed] of the test on the clock. *)
Definition main_loop_iteration (button_pressed : option Button) (elapsed : bool)
    (w : World) : option World :=
  w ← match button_pressed with
      | Some b => dispatch_button b w
      | None => Some w
      end;
  tick elapsed w.

(** A finite number of passes of the main loop. *)
Definition main_loop (inputs : list (option Button * bool)) (w : World) : option World :=
  for_in inputs (λ '(button_pressed, elapsed) w,
    main_loop_iteration button_pressed elapsed w) w.

(** The live cells of a grid, row by row. *)
Definition live_cells (g : Grid) : list (Z * Z) :=
  y ← range GRID_HEIGHT; x ← range GRID_WIDTH;
  if is_alive g x y then [(x, y)] else [].

(** The square [draw_grid] draws for a cell. *)
Definition cell_rectangle (c : Z * Z) : DisplayOp :=
  display_rectangle (c.1 * CELL_SIZE) (c.2 * CELL_SIZE + 25)
    (CELL_SIZE - 1) (CELL_SIZE - 1).

(** ** Facts about Python lists and loops *)

Lemma py_index_nonneg (len : nat) (i : Z) :
  0 ≤ i < Z.of_nat len → py_index len i = Some (Z.to_nat i).
Proof. intros Hi. unfold py_index. by rewrite bool_decide_true. Qed.

Lemma getitem_nonneg {A} (l : list A) (i : Z) :
  0 ≤ i < Z.of_nat (length l) → getitem l i = l !! Z.to_nat i.
Proof. intros Hi. unfold getitem. by rewrite py_index_nonneg. Qed.

Lemma setitem_nonneg {A} (l : list A) (i : Z) (v : A) :
  0 ≤ i < Z.of_nat (length l) → setitem l i v = Some (<[Z.to_nat i:=v]> l).
Proof. intros Hi. unfold setitem. by rewrite py_index_nonneg. Qed.

Lemma for_in_app {A St} (l1 l2 : list A) (body : A → St → option St) (s : St) :
  for_in (l1 ++ l2) body s = s' ← for_in l1 body s; for_in l2 body s'.
Proof.
  revert s. induction l1 as [|a l1 IH]; intros s; simpl; [done|].
  destruct (body a s) as [s'|]; simpl; [apply IH | done].
Qed.

Lemma range_succ (n : nat) :
  range (Z.of_nat (S n)) = range (Z.of_nat n) ++ [Z.of_nat n].
Proof.
  unfold range. rewrite !Nat2Z.id, seq_S, fmap_app. reflexivity.
Qed.

(** The loop-invariant rule for [for i in range(n)]: an invariant that holds
    on entry and is carried by every iteration holds on exit, and the loop
    raises no exception. *)
Lemma for_in_range_inv {St} (P : nat → St → Prop) (body : Z → St → option St)
    (n : Z) (s : St) :
  P 0%nat s →
  (∀ (i : nat) s, (i < Z.to_nat n)%nat → P i s →
     ∃ s', body (Z.of_nat i) s = Some s' ∧ P (S i) s') →
  ∃ s', for_in (range n) body s = Some s' ∧ P (Z.to_nat n) s'.
Proof.
  intros H0 Hstep.
  assert (Hgen : ∀ m : nat, (m ≤ Z.to_nat n)%nat →
            ∃ s', for_in (range (Z.of_nat m)) body s = Some s' ∧ P m s').
  { induction m as [|m IH]; intros Hm.
    - exists s. split; [reflexivity | assumption].
    - destruct IH as (s1 & Hrun & HP); [lia|].
      destruct (Hstep m s1) as (s2 & Hbody & HP2); [lia | assumption |].
      exists s2. split; [|assumption].
      rewrite range_succ, for_in_app, Hrun. simpl. by rewrite Hbody. }
  destruct (Hgen (Z.to_nat n)) as (s' & Hrun & HP); [lia|].
  exists s'. split; [|assumption].
  unfold range in *. by rewrite Nat2Z.id in Hrun.
Qed.

(** ** Facts about grids *)

Lemma in_bounds_true (x y : Z) :
  in_bounds x y = true ↔ 0 ≤ x < GRID_WIDTH ∧ 0 ≤ y < GRID_HEIGHT.
Proof. unfold in_bounds. rewrite !andb_true_iff. lia. Qed.

Lemma in_bounds_false (x y : Z) :
  in_bounds x y = false ↔ ¬ (0 ≤ x < GRID_WIDTH ∧ 0 ≤ y < GRID_HEIGHT).
Proof. rewrite <- in_bounds_true. by destruct (in_bounds x y). Qed.

Lemma shape_row (g : Grid) (y : Z) :
  shape g → 0 ≤ y < GRID_HEIGHT →
  ∃ row, g !! Z.to_nat y = Some row ∧ length row = Z.to_nat GRID_WIDTH.
Proof.
  intros [Hlen Hrows] Hy.
  destruct (lookup_lt_is_Some_2 g (Z.to_nat y)) as [row Hrow]; [lia|].
  exists row. split; [done|].
  rewrite Forall_lookup in Hrows. by eapply Hrows.
Qed.

Lemma grid_get_lookup (g : Grid) (x y : Z) :
  shape g → in_bounds x y = true →
  grid_get g x y = (g !! Z.to_nat y) ≫= (.!! Z.to_nat x).
Proof.
  intros Hg Hb. apply in_bounds_true in Hb as [Hx Hy].
  destruct (shape_row g y Hg Hy) as (row & Hrow & Hlen).
  unfold grid_get. rewrite getitem_nonneg by (destruct Hg; lia).
  rewrite Hrow. simpl. apply getitem_nonneg. lia.
Qed.

Lemma grid_get_is_Some (g : Grid) (x y : Z) :
  shape g → in_bounds x y = true → is_Some (grid_get g x y).
Proof.
  intros Hg Hb. rewrite grid_get_lookup by done.
  apply in_bounds_true in Hb as [Hx Hy].
  destruct (shape_row g y Hg Hy) as (row & Hrow & Hlen).
  rewrite Hrow. simpl. apply lookup_lt_is_Some_2. lia.
Qed.

(** Writing an in-bounds cell succeeds, keeps the shape, and changes that
    cell only. *)
Lemma grid_set_spec (g : Grid) (x y v : Z) :
  shape g → in_bounds x y = true →
  ∃ g', grid_set g x y v = Some g' ∧ shape g' ∧
    ∀ x' y', in_bounds x' y' = true →
      grid_get g' x' y' =
        if bool_decide (x' = x ∧ y' = y) then Some v else grid_get g x' y'.
Proof.
  intros Hg Hb. pose proof Hb as Hb'. apply in_bounds_true in Hb' as [Hx Hy].
  destruct (shape_row g y Hg Hy) as (row & Hrow & Hlen).
  pose proof Hg as [Hglen Hrows].
  exists (<[Z.to_nat y := <[Z.to_nat x := v]> row]> g).
  assert (Hg' : shape (<[Z.to_nat y := <[Z.to_nat x := v]> row]> g)).
  { split; [by rewrite length_insert|].
    apply Forall_insert; [done|]. by rewrite length_insert. }
  split; [|split; [done|]].
  - unfold grid_set. rewrite getitem_nonneg by lia. rewrite Hrow. simpl.
    rewrite setitem_nonneg by lia. simpl. apply setitem_nonneg. lia.
  - intros x' y' Hb2. rewrite !grid_get_lookup by done.
    apply in_bounds_true in Hb2 as [Hx' Hy'].
    destruct (decide (y' = y)) as [->|Hne].
    + rewrite list_lookup_insert_eq by lia. rewrite Hrow. simpl.
      destruct (decide (x' = x)) as [->|Hnx].
      * rewrite bool_decide_true by done. apply list_lookup_insert_eq. lia.
      * rewrite bool_decide_false by tauto. apply list_lookup_insert_ne. lia.
    + rewrite bool_decide_false by tauto.
      rewrite list_lookup_insert_ne by lia. done.
Qed.

Lemma binary_get (g : Grid) (x y c : Z) :
  shape g → binary g → in_bounds x y = true →
  grid_get g x y = Some c → c = DEAD ∨ c = ALIVE.
Proof.
  intros Hg Hbin Hb. rewrite grid_get_lookup by done.
  destruct (g !! Z.to_nat y) as [row|] eqn:Hrow; simpl; [|done].
  intros Hc. unfold binary in Hbin. rewrite Forall_lookup in Hbin.
  specialize (Hbin _ _ Hrow). rewrite Forall_lookup in Hbin. by eapply Hbin.
Qed.

(** ** The row-by-row loop over the grid *)

Section Fill.

(** A loop state [St] that carries a grid, a loop body that writes [v x y] at
    [(x, y)] and maintains [aux] (indexed by the number of cells done). *)
Context {St : Type}.
Variable grid_of : St → Grid.
Variable aux : nat → St → Prop.
Variable body : Z → Z → St → option St.
Variable v : Z → Z → Z.

Hypothesis body_ok : ∀ (i j : nat) (s : St),
  (i < Z.to_nat GRID_WIDTH)%nat → (j < Z.to_nat GRID_HEIGHT)%nat →
  shape (grid_of s) → aux (j * Z.to_nat GRID_WIDTH + i)%nat s →
  ∃ s', body (Z.of_nat i) (Z.of_nat j) s = Some s' ∧
        grid_set (grid_of s) (Z.of_nat i) (Z.of_nat j) (v (Z.of_nat i) (Z.of_nat j))
          = Some (grid_of s') ∧
        aux (S (j * Z.to_nat GRID_WIDTH + i)) s'.

Lemma fill_row (j : nat) (s : St) :
  (j < Z.to_nat GRID_HEIGHT)%nat → fill_inv grid_of aux v j 0 s →
  ∃ s', for_in (range GRID_WIDTH) (λ x s, body x (Z.of_nat j) s) s = Some s' ∧
        fill_inv grid_of aux v (S j) 0 s'.
Proof.
  intros Hj Hinv.
  destruct (for_in_range_inv (fill_inv grid_of aux v j) (λ x s, body x (Z.of_nat j) s)
              GRID_WIDTH s Hinv) as (s' & Hrun & Hs & Haux & Hfill).
  - intros i s1 Hi (Hs1 & Haux1 & Hfill1).
    destruct (body_ok i j s1 Hi Hj Hs1 Haux1) as (s2 & Hbody & Hset & Haux2).
    exists s2. split; [done|].
    destruct (grid_set_spec (grid_of s1) (Z.of_nat i) (Z.of_nat j)
                (v (Z.of_nat i) (Z.of_nat j)) Hs1) as (g' & Hset' & Hs2 & Hget).
    { apply in_bounds_true. lia. }
    rewrite Hset in Hset'. injection Hset' as <-.
    split; [done|]. split; [by rewrite Nat.add_succ_r|].
    intros x y Hb Hlt. rewrite Hget by done.
    case_bool_decide as Heq; [by destruct Heq as [-> ->]|].
    apply Hfill1; [done|]. lia.
  - exists s'. split; [done|]. split; [done|]. split.
    + by replace (S j * Z.to_nat GRID_WIDTH + 0)%nat
        with (j * Z.to_nat GRID_WIDTH + Z.to_nat GRID_WIDTH)%nat by lia.
    + intros x y Hb Hlt. apply Hfill; [done|].
      apply in_bounds_true in Hb. lia.
Qed.

Lemma fill_loops (s : St) :
  shape (grid_of s) → aux 0%nat s →
  ∃ s', for_in (range GRID_HEIGHT)
          (λ y s, for_in (range GRID_WIDTH) (λ x s, body x y s) s) s = Some s' ∧
        shape (grid_of s') ∧
        aux (Z.to_nat GRID_HEIGHT * Z.to_nat GRID_WIDTH)%nat s' ∧
        ∀ x y, in_bounds x y = true → grid_get (grid_of s') x y = Some (v x y).
Proof.
  intros Hs Haux.
  destruct (for_in_range_inv (λ j, fill_inv grid_of aux v j 0)
              (λ y s, for_in (range GRID_WIDTH) (λ x s, body x y s) s)
              GRID_HEIGHT s) as (s' & Hrun & Hs' & Haux' & Hfill).
  - split; [done|]. split; [done|]. intros x y Hb Hlt.
    apply in_bounds_true in Hb. lia.
  - intros j s1 Hj Hinv. by apply fill_row.
  - exists s'. split; [done|]. split; [done|]. split.
    + by rewrite Nat.add_0_r in Haux'.
    + intros x y Hb. apply Hfill; [done|]. apply in_bounds_true in Hb. lia.
Qed.

End Fill.

(** ** [clear_grid], the random fill and the stamping loop *)

Lemma clear_grid_spec (w : World) :
  shape (current_grid w) →
  ∃ g, clear_grid w = Some (set_current_grid g w) ∧ shape g ∧
       ∀ x y, in_bounds x y = true → grid_get g x y = Some DEAD.
Proof.
  intros Hs.
  destruct (fill_loops (λ g : Grid, g) (λ _ _, True)
              (λ x y g, grid_set g x y 0) (λ _ _, DEAD)) with (s := current_grid w)
    as (g & Hrun & Hg & _ & Hcells); [|done|done|].
  - intros i j g Hi Hj Hg _.
    destruct (grid_set_spec g (Z.of_nat i) (Z.of_nat j) 0 Hg) as (g' & Hset & _).
    { apply in_bounds_true. lia. }
    exists g'. by rewrite Hset.
  - exists g. unfold clear_grid. by rewrite Hrun.
Qed.

Lemma cell_index (i j : nat) :
  (i < Z.to_nat GRID_WIDTH)%nat →
  Z.to_nat (Z.of_nat j * GRID_WIDTH + Z.of_nat i) = (j * Z.to_nat GRID_WIDTH + i)%nat.
Proof.
  intros Hi. rewrite <- (Z2Nat.id GRID_WIDTH) at 1 by lia.
  rewrite <- Nat2Z.inj_mul, <- Nat2Z.inj_add. apply Nat2Z.id.
Qed.

Lemma random_fill_spec (g : Grid) (k : nat) :
  shape g →
  ∃ g', random_fill (g, k)
          = Some (g', (k + Z.to_nat GRID_HEIGHT * Z.to_nat GRID_WIDTH)%nat) ∧
        shape g' ∧
        ∀ x y, in_bounds x y = true →
          grid_get g' x y = Some (if drawn k x y then ALIVE else DEAD).
Proof.
  intros Hs.
  destruct (fill_loops (fst : Grid * nat → Grid) (λ n s, s.2 = (k + n)%nat)
              (λ x y '(g, k),
                 g' ← grid_set g x y (if PrimFloat.ltb (random k) 0.4%float then 1 else 0);
                 Some (g', S k))
              (λ x y, if drawn k x y then ALIVE else DEAD)) with (s := (g, k))
    as ([g' k'] & Hrun & Hg & Hk & Hcells); [|done|simpl; lia|].
  - intros i j [g1 k1] Hi Hj Hg1 Hk1. simpl in *. subst k1.
    destruct (grid_set_spec g1 (Z.of_nat i) (Z.of_nat j)
                (if drawn k (Z.of_nat i) (Z.of_nat j) then ALIVE else DEAD) Hg1)
      as (g2 & Hset & _).
    { apply in_bounds_true. lia. }
    unfold drawn in Hset. rewrite cell_index in Hset by done.
    exists (g2, S (k + (j * Z.to_nat GRID_WIDTH + i))).
    unfold drawn. rewrite cell_index by done.
    unfold ALIVE, DEAD in *. rewrite Hset. simpl. split; [done|]. split; [done|]. lia.
  - simpl in *. subst k'. exists g'. done.
Qed.

Lemma stamp_spec (offset_x offset_y : Z) (cs : list (Z * Z)) (g : Grid) :
  shape g →
  ∃ g', stamp offset_x offset_y cs g = Some g' ∧ shape g' ∧
        ∀ x y, in_bounds x y = true →
          grid_get g' x y =
            if stamped offset_x offset_y cs x y then Some ALIVE else grid_get g x y.
Proof.
  revert g. induction cs as [|[cx cy] cs IH]; intros g Hs.
  - exists g. done.
  - unfold stamp. simpl. fold (stamp offset_x offset_y cs).
    destruct (in_bounds (offset_x + cx) (offset_y + cy)) eqn:Hb.
    + destruct (grid_set_spec g (offset_x + cx) (offset_y + cy) 1 Hs Hb)
        as (g1 & -> & Hs1 & Hget1).
      simpl. destruct (IH g1 Hs1) as (g' & Hrun & Hs' & Hget').
      exists g'. split; [done|]. split; [done|].
      intros x y Hxy. rewrite Hget' by done. unfold stamped.
      rewrite Hget1 by done.
      destruct (decide ((x - offset_x, y - offset_y) ∈ cs)) as [Hin|Hnin].
      * rewrite !bool_decide_true; [done | | done]. by apply list_elem_of_further.
      * rewrite (bool_decide_false _ Hnin).
        case_bool_decide as Heq.
        -- destruct Heq as [-> ->]. rewrite bool_decide_true; [done|].
           replace (offset_x + cx - offset_x) with cx by lia.
           replace (offset_y + cy - offset_y) with cy by lia.
           apply list_elem_of_here.
        -- rewrite bool_decide_false; [done|].
           intros Hin. apply elem_of_cons in Hin as [Hin|Hin]; [|done].
           injection Hin as Hx Hy. apply Heq. lia.
    + simpl. destruct (IH g Hs) as (g' & Hrun & Hs' & Hget').
      exists g'. split; [done|]. split; [done|].
      intros x y Hxy. rewrite Hget' by done. unfold stamped.
      destruct (decide ((x - offset_x, y - offset_y) ∈ cs)) as [Hin|Hnin].
      * rewrite !bool_decide_true; [done | | done]. by apply list_elem_of_further.
      * rewrite (bool_decide_false _ Hnin). rewrite bool_decide_false; [done|].
        intros Hin. apply elem_of_cons in Hin as [Hin|Hin]; [|done].
        injection Hin as Hx Hy. apply in_bounds_false in Hb. apply Hb.
        apply in_bounds_true in Hxy. lia.
Qed.

(** ** [load_pattern] *)

Lemma getitem_patterns (pattern_index : Z) (p : Pattern) :
  0 ≤ pattern_index → patterns !! Z.to_nat pattern_index = Some p →
  getitem patterns pattern_index = Some p.
Proof.
  intros Hi Hp. rewrite getitem_nonneg; [done|].
  apply lookup_lt_Some in Hp. lia.
Qed.

(** On a grid of the right shape and a pattern of the list, [load_pattern]
    returns, changes the grid (and the count of draws) only, and leaves in
    every cell what the pattern alone dictates. *)
Lemma load_pattern_spec (pattern_index : Z) (p : Pattern) (w : World) :
  shape (current_grid w) →
  0 ≤ pattern_index → patterns !! Z.to_nat pattern_index = Some p →
  ∃ g k, load_pattern pattern_index w
           = Some {| state := state w; current_grid := g; next_grid := next_grid w;
                     rand_calls := k; storage := storage w |} ∧
         shape g ∧
         ∀ x y, in_bounds x y = true →
           grid_get g x y = Some (if stamped_by p (rand_calls w) x y then ALIVE else DEAD).
Proof.
  intros Hs Hi Hp. unfold load_pattern.
  destruct (clear_grid_spec w Hs) as (g0 & -> & Hs0 & Hdead). simpl.
  rewrite (getitem_patterns _ _ Hi Hp). simpl. unfold stamped_by.
  destruct (String.eqb (name p) "Random").
  - destruct (random_fill_spec g0 (rand_calls w) Hs0) as (g & -> & Hg & Hcells).
    simpl. by exists g, (rand_calls w + Z.to_nat GRID_HEIGHT * Z.to_nat GRID_WIDTH)%nat.
  - destruct (placement_offset (name p)) as [ox oy]. simpl.
    destruct (stamp_spec ox oy (cells p) g0 Hs0) as (g & -> & Hg & Hcells).
    simpl. exists g, (rand_calls w). split; [done|]. split; [done|].
    intros x y Hb. rewrite Hcells, Hdead by done. by destruct (stamped _ _ _ _ _).
Qed.

Lemma binary_of_cells (g : Grid) :
  shape g →
  (∀ x y, in_bounds x y = true → ∃ c, grid_get g x y = Some c ∧ (c = DEAD ∨ c = ALIVE)) →
  binary g.
Proof.
  intros Hs Hcells. pose proof Hs as [Hlen Hrows].
  apply Forall_lookup. intros j row Hrow. apply Forall_lookup. intros i c Hc.
  rewrite Forall_lookup in Hrows. pose proof (Hrows _ _ Hrow) as Hrl.
  apply lookup_lt_Some in Hrow as Hj. apply lookup_lt_Some in Hc as Hi.
  assert (Hb : in_bounds (Z.of_nat i) (Z.of_nat j) = true)
    by (apply in_bounds_true; lia).
  destruct (Hcells _ _ Hb) as (c' & Hget & Hc').
  rewrite grid_get_lookup in Hget by done. rewrite !Nat2Z.id in Hget.
  rewrite Hrow in Hget. simpl in Hget. congruence.
Qed.

(** ** [count_neighbors] and [update_game] *)

Lemma neighbor_step (g : Grid) (nx ny count : Z) :
  shape g → binary g →
  (if in_bounds nx ny then c ← grid_get g nx ny; Some (count + c) else Some count)
    = Some (count + Z.b2z (is_alive g nx ny)).
Proof.
  intros Hs Hbin. unfold is_alive. destruct (in_bounds nx ny) eqn:Hb.
  - destruct (grid_get_is_Some g nx ny Hs Hb) as [c Hc]. rewrite Hc. simpl.
    apply in_bounds_true in Hb as Hb'.
    destruct (binary_get g nx ny c Hs Hbin Hb Hc) as [->| ->].
    + rewrite bool_decide_false; [reflexivity|]. intros Hn. destruct Hn as (_ & _ & Heq). discriminate Heq.
    + rewrite bool_decide_true; [reflexivity | tauto].
  - apply in_bounds_false in Hb. rewrite bool_decide_false by tauto.
    simpl. f_equal. lia.
Qed.

Lemma live_neighbors_range (g : Grid) (x y : Z) :
  0 ≤ live_neighbors g x y ≤ 8.
Proof.
  unfold live_neighbors.
  pose proof (List.filter_length_le (λ p, is_alive g p.1 p.2) (moore x y)) as Hle.
  change (length (moore x y)) with 8%nat in Hle. lia.
Qed.

Lemma count_neighbors_spec (w : World) (x y : Z) :
  shape (current_grid w) → binary (current_grid w) →
  count_neighbors w x y = Some (live_neighbors (current_grid w) x y).
Proof.
  intros Hs Hbin. unfold count_neighbors. cbn [for_in Z.eqb andb].
  repeat (rewrite (neighbor_step _ _ _ _ Hs Hbin); cbn [mbind option_bind]).
  unfold live_neighbors, moore. cbn [List.filter fst snd].
  rewrite !Z.add_0_r. change (x + -1) with (x - 1). change (y + -1) with (y - 1).
  f_equal.
  destruct (is_alive _ (x - 1) (y - 1)), (is_alive _ x (y - 1)),
    (is_alive _ (x + 1) (y - 1)), (is_alive _ (x - 1) y), (is_alive _ (x + 1) y),
    (is_alive _ (x - 1) (y + 1)), (is_alive _ x (y + 1)),
    (is_alive _ (x + 1) (y + 1)); reflexivity.
Qed.

(** One call of [update_game] on well-formed globals: it returns, the new
    current grid holds [rule] of the old cell and its live neighbours in every
    cell, the buffers are swapped and the generation goes up by one. *)
Lemma update_game_spec (w : World) :
  wf w →
  ∃ g, update_game w
         = Some {| state := set_generation (generation (state w) + 1) (state w);
                   current_grid := g; next_grid := current_grid w;
                   rand_calls := rand_calls w; storage := storage w |} ∧
       shape g ∧
       ∀ x y, in_bounds x y = true →
         ∃ c, grid_get (current_grid w) x y = Some c ∧
              grid_get g x y = Some (rule c (live_neighbors (current_grid w) x y)).
Proof.
  intros (Hcur & Hnext & Hbin).
  destruct (fill_loops (λ g : Grid, g) (λ _ _, True)
              (λ x y ng,
                 neighbors ← count_neighbors w x y;
                 current_cell ← grid_get (current_grid w) x y;
                 if current_cell =? 1 then
                   if (neighbors <? 2) || (3 <? neighbors) then grid_set ng x y 0
                   else grid_set ng x y 1
                 else
                   if neighbors =? 3 then grid_set ng x y 1
                   else grid_set ng x y 0)
              (λ x y, rule (default 0 (grid_get (current_grid w) x y))
                        (live_neighbors (current_grid w) x y)))
    with (s := next_grid w) as (g & Hrun & Hg & _ & Hcells); [|done|done|].
  - intros i j ng Hi Hj Hng _.
    assert (Hb : in_bounds (Z.of_nat i) (Z.of_nat j) = true)
      by (apply in_bounds_true; lia).
    rewrite count_neighbors_spec by done. simpl.
    destruct (grid_get_is_Some (current_grid w) _ _ Hcur Hb) as [c Hc].
    rewrite Hc. simpl. unfold rule.
    set (n := live_neighbors (current_grid w) (Z.of_nat i) (Z.of_nat j)).
    destruct (grid_set_spec ng (Z.of_nat i) (Z.of_nat j) 0 Hng Hb) as (g0 & H0 & _).
    destruct (grid_set_spec ng (Z.of_nat i) (Z.of_nat j) 1 Hng Hb) as (g1 & H1 & _).
    destruct (c =? 1); [destruct ((n <? 2) || (3 <? n)) | destruct (n =? 3)];
      eauto.
  - exists g. unfold update_game. rewrite Hrun. simpl. split; [done|].
    split; [done|]. intros x y Hb.
    destruct (grid_get_is_Some (current_grid w) _ _ Hcur Hb) as [c Hc].
    exists c. split; [done|]. rewrite Hcells by done. by rewrite Hc.
Qed.

Lemma grid_ext (g g' : Grid) :
  shape g → shape g' →
  (∀ x y, in_bounds x y = true → grid_get g x y = grid_get g' x y) →
  g = g'.
Proof.
  intros Hs Hs' Hcells. pose proof Hs as [Hlen Hrows]. pose proof Hs' as [Hlen' Hrows'].
  apply list_eq. intros j.
  destruct (decide (j < Z.to_nat GRID_HEIGHT)%nat) as [Hj|Hj].
  - destruct (lookup_lt_is_Some_2 g j) as [row Hrow]; [lia|].
    destruct (lookup_lt_is_Some_2 g' j) as [row' Hrow']; [lia|].
    rewrite Hrow, Hrow'. f_equal.
    rewrite Forall_lookup in Hrows. rewrite Forall_lookup in Hrows'.
    pose proof (Hrows _ _ Hrow) as Hl. pose proof (Hrows' _ _ Hrow') as Hl'.
    apply list_eq. intros i.
    destruct (decide (i < Z.to_nat GRID_WIDTH)%nat) as [Hi|Hi].
    + assert (Hb : in_bounds (Z.of_nat i) (Z.of_nat j) = true)
        by (apply in_bounds_true; lia).
      specialize (Hcells _ _ Hb). rewrite !grid_get_lookup in Hcells by done.
      rewrite !Nat2Z.id in Hcells. by rewrite Hrow, Hrow' in Hcells.
    + rewrite !lookup_ge_None_2 by lia. done.
  - rewrite !lookup_ge_None_2 by lia. done.
Qed.

(** The scratch buffer, the state dictionary and the rest of the globals have
    no influence on the grid a step computes. *)
Lemma update_game_current (w1 w2 : World) :
  wf w1 → wf w2 → current_grid w1 = current_grid w2 →
  current_grid <$> update_game w1 = current_grid <$> update_game w2.
Proof.
  intros Hw1 Hw2 Heq.
  destruct (update_game_spec w1 Hw1) as (g1 & -> & Hg1 & Hc1).
  destruct (update_game_spec w2 Hw2) as (g2 & -> & Hg2 & Hc2).
  simpl. f_equal. apply grid_ext; [done..|].
  intros x y Hb.
  destruct (Hc1 x y Hb) as (c1 & Hget1 & ->).
  destruct (Hc2 x y Hb) as (c2 & Hget2 & ->).
  rewrite Heq in *. congruence.
Qed.

(** ** The globals stay well formed *)

Lemma patterns_lookup (pattern_index : Z) :
  0 ≤ pattern_index < len_patterns →
  ∃ p, patterns !! Z.to_nat pattern_index = Some p.
Proof.
  intros Hi. apply lookup_lt_is_Some_2. unfold len_patterns in Hi. lia.
Qed.

Lemma empty_grid_shape : shape empty_grid.
Proof.
  unfold shape, empty_grid, range. split.
  - by rewrite !length_fmap, length_seq.
  - apply Forall_fmap, Forall_forall. intros y _. simpl.
    by rewrite !length_fmap, length_seq.
Qed.

Lemma empty_grid_binary : binary empty_grid.
Proof.
  unfold binary, empty_grid. apply Forall_fmap, Forall_forall. intros y _. simpl.
  apply Forall_fmap, Forall_forall. intros x _. simpl. by left.
Qed.

Lemma load_pattern_wf (pattern_index : Z) (w : World) :
  wf w → 0 ≤ pattern_index < len_patterns →
  ∃ w', load_pattern pattern_index w = Some w' ∧ wf w' ∧ state w' = state w.
Proof.
  intros (Hcur & Hnext & _) Hi. destruct (patterns_lookup _ Hi) as [p Hp].
  destruct (load_pattern_spec pattern_index p w Hcur) as (g & k & -> & Hg & Hcells);
    [lia | done |].
  eexists. split; [reflexivity|]. split; [|done].
  split; [done|]. split; [done|]. simpl.
  apply binary_of_cells; [done|]. intros x y Hb. rewrite Hcells by done.
  eexists. split; [reflexivity|]. destruct (stamped_by _ _ _ _); auto.
Qed.

Lemma update_game_wf (w : World) :
  wf w →
  ∃ w', update_game w = Some w' ∧ wf w' ∧
        state w' = set_generation (generation (state w) + 1) (state w).
Proof.
  intros Hw. destruct (update_game_spec w Hw) as (g & -> & Hg & Hcells).
  destruct Hw as (Hcur & Hnext & Hbin).
  eexists. split; [reflexivity|]. split; [|done].
  split; [done|]. split; [done|]. simpl.
  apply binary_of_cells; [done|]. intros x y Hb.
  destruct (Hcells x y Hb) as (c & _ & ->).
  eexists. split; [reflexivity|]. unfold rule, DEAD, ALIVE.
  destruct (c =? 1); [destruct (_ || _) | destruct (_ =? 3)]; auto.
Qed.

(** Every control keeps the globals well formed and the selected pattern in
    the list; its effect on the generation counter is: reset by the three
    controls that load a pattern, one more by a single step, unchanged
    otherwise. *)
Lemma dispatch_button_wf (button_pressed : Button) (w : World) :
  wf w → 0 ≤ pattern (state w) < len_patterns →
  ∃ w', dispatch_button button_pressed w = Some w' ∧ wf w' ∧
        0 ≤ pattern (state w') < len_patterns ∧
        storage w' = Some (state w') ∧
        generation (state w') =
          match button_pressed with
          | button_a | button_c | button_down => 0
          | button_b => generation (state w)
          | button_up =>
              if paused (state w) then generation (state w) + 1
              else generation (state w)
          end.
Proof.
  intros Hw Hi. assert (Hn : 0 < len_patterns) by done.
  unfold dispatch_button. destruct button_pressed.
  - pose proof (Z.mod_pos_bound (pattern (state w) - 1) len_patterns Hn) as Hj.
    destruct (load_pattern_wf ((pattern (state w) - 1) `mod` len_patterns)
      (set_state (set_generation 0 (set_pattern
         ((pattern (state w) - 1) `mod` len_patterns) (state w))) w) Hw Hj)
      as (w' & Hrun & Hw' & Hst).
    unfold set_state, set_generation, set_pattern in *. simpl in *.
    rewrite Hrun. simpl. eexists. split; [reflexivity|].
    simpl. rewrite Hst. done.
  - eexists. split; [reflexivity|]. done.
  - pose proof (Z.mod_pos_bound (pattern (state w) + 1) len_patterns Hn) as Hj.
    destruct (load_pattern_wf ((pattern (state w) + 1) `mod` len_patterns)
      (set_state (set_generation 0 (set_pattern
         ((pattern (state w) + 1) `mod` len_patterns) (state w))) w) Hw Hj)
      as (w' & Hrun & Hw' & Hst).
    unfold set_state, set_generation, set_pattern in *. simpl in *.
    rewrite Hrun. simpl. eexists. split; [reflexivity|].
    simpl. rewrite Hst. done.
  - destruct (paused (state w)).
    + destruct (update_game_wf w Hw) as (w' & -> & Hw' & Hst).
      simpl. eexists. split; [reflexivity|]. simpl. rewrite Hst. done.
    + eexists. split; [reflexivity|]. done.
  - destruct (load_pattern_wf (pattern (state w))
      (set_state (set_generation 0 (state w)) w) Hw Hi) as (w' & Hrun & Hw' & Hst).
    unfold set_state, set_generation, set_pattern in *. simpl in *.
    rewrite Hrun. simpl. eexists. split; [reflexivity|].
    simpl. rewrite Hst. done.
Qed.

Lemma tick_wf (elapsed : bool) (w : World) :
  wf w →
  ∃ w', tick elapsed w = Some w' ∧ wf w' ∧
        generation (state w') =
          if negb (paused (state w)) && elapsed then generation (state w) + 1
          else generation (state w).
Proof.
  intros Hw. unfold tick. destruct (negb (paused (state w)) && elapsed).
  - destruct (update_game_wf w Hw) as (w' & -> & Hw' & Hst).
    exists w'. by rewrite Hst.
  - by exists w.
Qed.

(** Start-up returns well-formed globals whenever the restored pattern index
    is not negative (there is no state file, or the application wrote it). *)
Lemma startup_wf (file : option State) :
  (∀ saved, file = Some saved → 0 ≤ pattern saved) →
  ∃ w, startup file = Some w ∧ wf w ∧ 0 ≤ pattern (state w) < len_patterns.
Proof.
  intros Hfile. unfold startup.
  assert (Hinit : ∀ st f, 0 ≤ pattern st < len_patterns →
            ∃ w, load_pattern (pattern st)
                   {| state := st; current_grid := empty_grid; next_grid := empty_grid;
                      rand_calls := 0; storage := f |} = Some w ∧
                 wf w ∧ 0 ≤ pattern (state w) < len_patterns).
  { intros st f Hst.
    destruct (load_pattern_wf (pattern st)
                {| state := st; current_grid := empty_grid; next_grid := empty_grid;
                   rand_calls := 0; storage := f |}) as (w & Hrun & Hw & Hsame);
      [|done|].
    - split; [apply empty_grid_shape|]. split; [apply empty_grid_shape|].
      apply empty_grid_binary.
    - exists w. split; [done|]. split; [done|]. by rewrite Hsame. }
  destruct file as [saved|]; simpl.
  - specialize (Hfile saved eq_refl).
    destruct (Z.leb_spec len_patterns (pattern saved)); apply Hinit; simpl; [done|lia].
  - apply Hinit. done.
Qed.

(** ** The properties of the specification *)

(** C1. For every well-formed grid and every in-bounds cell, one step of
    [update_game] returns and gives the cell its next state by the standard
    rule on the prior generation: an ALIVE cell with fewer than 2 or more than
    3 live neighbours becomes DEAD, an ALIVE cell with 2 or 3 stays ALIVE, a
    DEAD cell with exactly 3 becomes ALIVE, any other DEAD cell stays DEAD. *)
Theorem update_game_standard_rule (w : World) (x y : Z) :
  wf w → 0 ≤ x < GRID_WIDTH → 0 ≤ y < GRID_HEIGHT →
  ∃ w' c c',
    update_game w = Some w' ∧
    grid_get (current_grid w) x y = Some c ∧ (c = ALIVE ∨ c = DEAD) ∧
    grid_get (current_grid w') x y = Some c' ∧
    let n := live_neighbors (current_grid w) x y in
    (c = ALIVE → n < 2 ∨ n > 3 → c' = DEAD) ∧
    (c = ALIVE → n = 2 ∨ n = 3 → c' = ALIVE) ∧
    (c = DEAD → n = 3 → c' = ALIVE) ∧
    (c = DEAD → n ≠ 3 → c' = DEAD).
Proof.
  intros Hw Hx Hy.
  assert (Hb : in_bounds x y = true) by (by apply in_bounds_true).
  destruct (update_game_spec w Hw) as (g & Hrun & Hg & Hcells).
  destruct (Hcells x y Hb) as (c & Hc & Hc').
  destruct Hw as (Hcur & _ & Hbin).
  eexists _, c, _. split; [exact Hrun|]. simpl.
  split; [done|].
  split; [destruct (binary_get _ _ _ _ Hcur Hbin Hb Hc); auto|].
  split; [exact Hc'|].
  unfold rule, ALIVE, DEAD. repeat split; intros -> Hn; simpl.
  - destruct Hn as [Hn|Hn].
    + apply Z.ltb_lt in Hn as ->. done.
    + assert ((3 <? live_neighbors (current_grid w) x y) = true) as ->
        by (apply Z.ltb_lt; lia).
      by rewrite orb_true_r.
  - assert ((live_neighbors (current_grid w) x y <? 2) = false) as ->
      by (apply Z.ltb_ge; lia).
    assert ((3 <? live_neighbors (current_grid w) x y) = false) as ->
      by (apply Z.ltb_ge; lia).
    done.
  - by rewrite Hn.
  - apply Z.eqb_neq in Hn as ->. done.
Qed.

(** C2. For every well-formed grid and every in-bounds [(x, y)],
    [count_neighbors] returns a number between 0 and 8, the number of ALIVE
    cells among the 8 positions of the Moore neighbourhood, where a position
    outside the grid is not alive and [(x, y)] itself is not one of the 8. *)
Theorem count_neighbors_moore (w : World) (x y : Z) :
  shape (current_grid w) → binary (current_grid w) →
  0 ≤ x < GRID_WIDTH → 0 ≤ y < GRID_HEIGHT →
  ∃ n, count_neighbors w x y = Some n ∧ 0 ≤ n ≤ 8 ∧
       n = Z.of_nat (length (List.filter (λ p, is_alive (current_grid w) p.1 p.2)
                               (moore x y))) ∧
       ((x, y) ∉ moore x y) ∧
       ∀ nx ny, ¬ (0 ≤ nx < GRID_WIDTH ∧ 0 ≤ ny < GRID_HEIGHT) →
         is_alive (current_grid w) nx ny = false.
Proof.
  intros Hs Hbin Hx Hy. exists (live_neighbors (current_grid w) x y).
  split; [by apply count_neighbors_spec|].
  split; [apply live_neighbors_range|]. split; [done|]. split.
  - unfold moore. rewrite !not_elem_of_cons. repeat split; try (intros [=]; lia).
    apply not_elem_of_nil.
  - intros nx ny Hout. unfold is_alive. apply bool_decide_false. tauto.
Qed.

Lemma stamp_drop (offset_x offset_y dx dy : Z) (before after : list (Z * Z)) (g : Grid) :
  in_bounds (offset_x + dx) (offset_y + dy) = false →
  stamp offset_x offset_y (before ++ (dx, dy) :: after) g
    = stamp offset_x offset_y (before ++ after) g.
Proof.
  intros Hout. unfold stamp. rewrite !for_in_app.
  destruct (for_in before _ g) as [g1|]; simpl; [|done].
  by rewrite Hout.
Qed.

(** C4. For every prior grid contents and every valid pattern index,
    [load_pattern] first clears the whole grid to all-DEAD, and the grid it
    leaves has ALIVE cells exactly at the positions stamped by the pattern and
    DEAD cells everywhere else. *)
Theorem load_pattern_clears_grid (pattern_index : Z) (w : World) :
  shape (current_grid w) → 0 ≤ pattern_index < len_patterns →
  ∃ p w0 w',
    patterns !! Z.to_nat pattern_index = Some p ∧
    clear_grid w = Some w0 ∧
    (∀ x y, 0 ≤ x < GRID_WIDTH → 0 ≤ y < GRID_HEIGHT →
       grid_get (current_grid w0) x y = Some DEAD) ∧
    load_pattern pattern_index w = Some w' ∧
    shape (current_grid w') ∧
    ∀ x y, 0 ≤ x < GRID_WIDTH → 0 ≤ y < GRID_HEIGHT →
      grid_get (current_grid w') x y
        = Some (if stamped_by p (rand_calls w) x y then ALIVE else DEAD).
Proof.
  intros Hs Hi. destruct (patterns_lookup _ Hi) as [p Hp].
  destruct (clear_grid_spec w Hs) as (g0 & Hclear & _ & Hdead).
  destruct (load_pattern_spec pattern_index p w Hs) as (g & k & Hload & Hg & Hcells);
    [lia | done |].
  eexists p, _, _. split; [done|]. split; [exact Hclear|]. split.
  { intros x y Hx Hy. apply Hdead. by apply in_bounds_true. }
  split; [exact Hload|]. split; [done|].
  intros x y Hx Hy. apply Hcells. by apply in_bounds_true.
Qed.

(** C5. For every named pattern and every offset of it whose placed position
    falls outside the grid, [load_pattern] raises no error and drops the cell:
    the grid it leaves is the one stamped without that offset, it has the
    shape it had (no position outside the grid was written), and every ALIVE
    cell is the exact translate of an offset of the pattern (no
    wrap-around). *)
Theorem load_pattern_clips (pattern_index : Z) (p : Pattern) (w : World)
    (before after : list (Z * Z)) (dx dy : Z) :
  shape (current_grid w) →
  0 ≤ pattern_index → patterns !! Z.to_nat pattern_index = Some p →
  name p ≠ "Random" →
  cells p = before ++ (dx, dy) :: after →
  ¬ (0 ≤ (placement_offset (name p)).1 + dx < GRID_WIDTH ∧
     0 ≤ (placement_offset (name p)).2 + dy < GRID_HEIGHT) →
  ∃ w0 w',
    clear_grid w = Some w0 ∧
    load_pattern pattern_index w = Some w' ∧
    stamp (placement_offset (name p)).1 (placement_offset (name p)).2
      (before ++ after) (current_grid w0) = Some (current_grid w') ∧
    shape (current_grid w') ∧
    ∀ x y, 0 ≤ x < GRID_WIDTH → 0 ≤ y < GRID_HEIGHT →
      grid_get (current_grid w') x y = Some ALIVE →
      ∃ cx cy, (cx, cy) ∈ cells p ∧
               x = (placement_offset (name p)).1 + cx ∧
               y = (placement_offset (name p)).2 + cy.
Proof.
  intros Hs Hi Hp Hname Hcells Hout. apply in_bounds_false in Hout.
  destruct (clear_grid_spec w Hs) as (g0 & Hclear & Hs0 & _).
  destruct (load_pattern_spec pattern_index p w Hs Hi Hp) as (g & k & Hload & Hg & Hget).
  eexists _, _. split; [exact Hclear|]. split; [exact Hload|]. simpl.
  split; [|split; [done|]].
  - unfold load_pattern in Hload. rewrite Hclear in Hload. simpl in Hload.
    rewrite (getitem_patterns _ _ Hi Hp) in Hload. simpl in Hload.
    apply String.eqb_neq in Hname. rewrite Hname in Hload.
    destruct (placement_offset (name p)) as [ox oy]. simpl in *.
    rewrite Hcells, stamp_drop in Hload by done.
    destruct (stamp ox oy (before ++ after) g0) as [g'|]; simpl in Hload; [|done].
    by injection Hload as ->.
  - intros x y Hx Hy Halive. rewrite Hget in Halive by (by apply in_bounds_true).
    unfold stamped_by in Halive. apply String.eqb_neq in Hname. rewrite Hname in Halive.
    unfold stamped in Halive. case_bool_decide as Hin; [|discriminate Halive].
    exists (x - (placement_offset (name p)).1), (y - (placement_offset (name p)).2).
    split; [done|]. lia.
Qed.

(** C6. Every pattern other than Glider Gun, Pulsar, 10-cell row and the
    random fill is placed at offset [GRID_WIDTH // 2 - 3] by
    [GRID_HEIGHT // 2 - 3]; the Glider Gun is placed at 5 by 2, the Pulsar at
    [GRID_WIDTH // 2 - 6] by [GRID_HEIGHT // 2 - 6], the 10-cell row at
    [GRID_WIDTH // 2 - 5] by [GRID_HEIGHT // 3]. *)
Theorem load_pattern_placement (pattern_index : Z) (p : Pattern) (w : World) :
  shape (current_grid w) →
  0 ≤ pattern_index → patterns !! Z.to_nat pattern_index = Some p →
  name p ≠ "Random" →
  ∃ w' offset_x offset_y,
    load_pattern pattern_index w = Some w' ∧
    (∀ x y, 0 ≤ x < GRID_WIDTH → 0 ≤ y < GRID_HEIGHT →
       grid_get (current_grid w') x y
         = Some (if bool_decide ((x - offset_x, y - offset_y) ∈ cells p)
                 then ALIVE else DEAD)) ∧
    (name p = "Glider Gun" → offset_x = 5 ∧ offset_y = 2) ∧
    (name p = "Pulsar" →
       offset_x = GRID_WIDTH `div` 2 - 6 ∧ offset_y = GRID_HEIGHT `div` 2 - 6) ∧
    (name p = "10-cell row" →
       offset_x = GRID_WIDTH `div` 2 - 5 ∧ offset_y = GRID_HEIGHT `div` 3) ∧
    (name p ≠ "Glider Gun" → name p ≠ "Pulsar" → name p ≠ "10-cell row" →
       offset_x = GRID_WIDTH `div` 2 - 3 ∧ offset_y = GRID_HEIGHT `div` 2 - 3).
Proof.
  intros Hs Hi Hp Hname.
  destruct (load_pattern_spec pattern_index p w Hs Hi Hp) as (g & k & Hload & Hg & Hget).
  eexists _, (placement_offset (name p)).1, (placement_offset (name p)).2.
  split; [exact Hload|]. split.
  { intros x y Hx Hy. simpl. rewrite Hget by (by apply in_bounds_true).
    unfold stamped_by. apply String.eqb_neq in Hname. by rewrite Hname. }
  unfold placement_offset.
  destruct (String.eqb_spec (name p) "Glider Gun") as [->|Hgun];
    [by repeat split|].
  destruct (String.eqb_spec (name p) "Pulsar") as [->|Hpulsar];
    [by repeat split|].
  destruct (String.eqb_spec (name p) "10-cell row") as [->|Hrow];
    by repeat split.
Qed.

(** The three controls that load a pattern leave the generation at 0 and the
    freshly loaded pattern in the grid. *)
Lemma reload_spec (pattern_index : Z) (p : Pattern) (w : World) :
  shape (current_grid w) →
  0 ≤ pattern_index → patterns !! Z.to_nat pattern_index = Some p →
  ∃ w', (w1 ← load_pattern pattern_index
                 (set_state (set_generation 0 (set_pattern pattern_index (state w))) w);
         Some (state_save w1)) = Some w' ∧
        state w' = set_generation 0 (set_pattern pattern_index (state w)) ∧
        shape (current_grid w') ∧
        ∀ x y, 0 ≤ x < GRID_WIDTH → 0 ≤ y < GRID_HEIGHT →
          grid_get (current_grid w') x y
            = Some (if stamped_by p (rand_calls w) x y then ALIVE else DEAD).
Proof.
  intros Hs Hi Hp.
  destruct (load_pattern_spec pattern_index p
              (set_state (set_generation 0 (set_pattern pattern_index (state w))) w)
              Hs Hi Hp) as (g & k & -> & Hg & Hget).
  simpl. eexists. split; [reflexivity|]. simpl. split; [done|]. split; [done|].
  intros x y Hx Hy. apply Hget. by apply in_bounds_true.
Qed.

(** C8. For every current pattern index [i] in [0, N), the next-pattern
    control (button C) selects [(i + 1) mod N] and the previous-pattern control
    (button A) selects [(i - 1) mod N]; each then reloads the selected pattern
    and leaves the generation counter at 0. *)
Theorem pattern_buttons_cycle (w : World) :
  shape (current_grid w) → 0 ≤ pattern (state w) < len_patterns →
  (∃ w' p,
     dispatch_button button_c w = Some w' ∧
     pattern (state w') = (pattern (state w) + 1) `mod` len_patterns ∧
     generation (state w') = 0 ∧
     patterns !! Z.to_nat (pattern (state w')) = Some p ∧
     ∀ x y, 0 ≤ x < GRID_WIDTH → 0 ≤ y < GRID_HEIGHT →
       grid_get (current_grid w') x y
         = Some (if stamped_by p (rand_calls w) x y then ALIVE else DEAD)) ∧
  (∃ w' p,
     dispatch_button button_a w = Some w' ∧
     pattern (state w') = (pattern (state w) - 1) `mod` len_patterns ∧
     generation (state w') = 0 ∧
     patterns !! Z.to_nat (pattern (state w')) = Some p ∧
     ∀ x y, 0 ≤ x < GRID_WIDTH → 0 ≤ y < GRID_HEIGHT →
       grid_get (current_grid w') x y
         = Some (if stamped_by p (rand_calls w) x y then ALIVE else DEAD)).
Proof.
  intros Hs Hi.
  assert (Hn : 0 < len_patterns) by done.
  split.
  - pose proof (Z.mod_pos_bound (pattern (state w) + 1) len_patterns Hn) as Hj.
    destruct (patterns_lookup _ Hj) as [p Hp].
    destruct (reload_spec _ p w Hs (proj1 Hj) Hp) as (w' & Hrun & Hst & _ & Hget).
    exists w', p. split; [exact Hrun|]. rewrite Hst. simpl. done.
  - pose proof (Z.mod_pos_bound (pattern (state w) - 1) len_patterns Hn) as Hj.
    destruct (patterns_lookup _ Hj) as [p Hp].
    destruct (reload_spec _ p w Hs (proj1 Hj) Hp) as (w' & Hrun & Hst & _ & Hget).
    exists w', p. split; [exact Hrun|]. rewrite Hst. simpl. done.
Qed.

Lemma cell_index_inj (x y x' y' : Z) :
  0 ≤ x < GRID_WIDTH → 0 ≤ x' < GRID_WIDTH → 0 ≤ y → 0 ≤ y' →
  y' * GRID_WIDTH + x' = y * GRID_WIDTH + x → x' = x ∧ y' = y.
Proof.
  intros Hx Hx' Hy Hy' Heq.
  assert (y' = y) as -> by nia. lia.
Qed.

(** C9. When the random-fill pattern is loaded, every cell of the grid is set
    by a draw of its own: the load makes one draw per cell, row by row, and
    cell [(x, y)] is ALIVE exactly when its draw is below 0.4. The draws of
    a load are fresh: the next load starts after them. *)
Theorem random_fill_threshold (pattern_index : Z) (p : Pattern) (w : World) :
  shape (current_grid w) →
  0 ≤ pattern_index → patterns !! Z.to_nat pattern_index = Some p →
  name p = "Random" →
  ∃ w',
    load_pattern pattern_index w = Some w' ∧
    rand_calls w' = (rand_calls w + Z.to_nat GRID_HEIGHT * Z.to_nat GRID_WIDTH)%nat ∧
    ∀ x y, 0 ≤ x < GRID_WIDTH → 0 ≤ y < GRID_HEIGHT →
      let k := (rand_calls w + Z.to_nat (y * GRID_WIDTH + x))%nat in
      (rand_calls w ≤ k < rand_calls w')%nat ∧
      (∀ x' y', 0 ≤ x' < GRID_WIDTH → 0 ≤ y' < GRID_HEIGHT →
         (rand_calls w + Z.to_nat (y' * GRID_WIDTH + x'))%nat = k → x' = x ∧ y' = y) ∧
      grid_get (current_grid w') x y
        = Some (if PrimFloat.ltb (random k) 0.4%float then ALIVE else DEAD).
Proof.
  intros Hs Hi Hp Hname.
  unfold load_pattern.
  destruct (clear_grid_spec w Hs) as (g0 & -> & Hs0 & _). simpl.
  rewrite (getitem_patterns _ _ Hi Hp). simpl.
  apply String.eqb_eq in Hname. rewrite Hname.
  destruct (random_fill_spec g0 (rand_calls w) Hs0) as (g & -> & Hg & Hcells).
  simpl. eexists. split; [reflexivity|]. simpl. split; [done|].
  intros x y Hx Hy. split; [|split].
  - split; [lia|]. apply Nat.add_lt_mono_l.
    rewrite <- Z2Nat.inj_mul by lia. apply Z2Nat.inj_lt; nia.
  - intros x' y' Hx' Hy' Heq. apply (cell_index_inj x y x' y'); [lia..|].
    apply Nat.add_cancel_l in Heq. apply Z2Nat.inj in Heq; nia.
  - apply Hcells. by apply in_bounds_true.
Qed.

Lemma load_pattern_globals (pattern_index : Z) (w w' : World) :
  load_pattern pattern_index w = Some w' →
  state w' = state w ∧ next_grid w' = next_grid w ∧ storage w' = storage w.
Proof.
  unfold load_pattern, clear_grid.
  destruct (for_in (range GRID_HEIGHT) _ (current_grid w)) as [g0|]; simpl; [|done].
  destruct (getitem patterns pattern_index) as [p|]; simpl; [|done].
  destruct (String.eqb (name p) "Random").
  - destruct (random_fill _) as [[g k]|]; simpl; [|done].
    by intros [= <-].
  - destruct (placement_offset (name p)) as [ox oy].
    destruct (stamp ox oy (cells p) g0) as [g|]; simpl; [|done].
    by intros [= <-].
Qed.

(** C10. [load_pattern] changes the grid only: whatever the pattern index,
    the paused flag, the selected pattern and the generation counter are those
    of before the call (so are the scratch buffer and the state file). The
    reset control sets the generation to 0 itself, before the call. *)
Theorem load_pattern_frame (pattern_index : Z) (w w' : World) :
  load_pattern pattern_index w = Some w' →
  paused (state w') = paused (state w) ∧
  pattern (state w') = pattern (state w) ∧
  generation (state w') = generation (state w) ∧
  next_grid w' = next_grid w ∧ storage w' = storage w ∧
  ∀ w1, dispatch_button button_down w = Some w1 →
        state w1 = set_generation 0 (state w).
Proof.
  intros Hload. destruct (load_pattern_globals _ _ _ Hload) as (Hst & Hng & Hsto).
  rewrite Hst. repeat split; [done..|].
  intros w1. unfold dispatch_button.
  destruct (load_pattern _ (set_state _ w)) as [w2|] eqn:Hreset; simpl; [|done].
  intros Hw1. injection Hw1 as <-. simpl.
  by destruct (load_pattern_globals _ _ _ Hreset) as (-> & _).
Qed.

(** Start-up keeps the generation found in the state file. *)
Lemma startup_generation (saved : State) (w : World) :
  startup (Some saved) = Some w → generation (state w) = generation saved.
Proof.
  unfold startup, state_load.
  destruct (len_patterns <=? pattern saved); intros Hload;
    apply load_pattern_globals in Hload as (-> & _); done.
Qed.

(** ** Further properties of the engine *)

Lemma getitem_patterns_is_Some (pattern_index : Z) :
  is_Some (getitem patterns pattern_index) ↔ - len_patterns ≤ pattern_index < len_patterns.
Proof.
  unfold getitem, py_index. change (Z.of_nat (length patterns)) with len_patterns.
  repeat case_bool_decide; simpl.
  - split; [lia|]. intros _. apply lookup_lt_is_Some_2.
    unfold len_patterns in *. lia.
  - split; [lia|]. intros _. apply lookup_lt_is_Some_2.
    unfold len_patterns in *. lia.
  - split; [by intros [? ?] | lia].
Qed.

Lemma getitem_patterns_negative (pattern_index : Z) :
  - len_patterns ≤ pattern_index < 0 →
  getitem patterns pattern_index = getitem patterns (pattern_index + len_patterns).
Proof.
  intros Hi. unfold getitem, py_index.
  change (Z.of_nat (length patterns)) with len_patterns.
  rewrite (bool_decide_false (0 ≤ pattern_index < _)) by lia.
  rewrite (bool_decide_true (- len_patterns ≤ pattern_index < 0)) by lia.
  rewrite (bool_decide_true (0 ≤ pattern_index + len_patterns < _))
    by (unfold len_patterns in *; simpl in *; lia).
  simpl. f_equal. lia.
Qed.

(** [load_pattern] for whatever index Python accepts: the grid is the
    pattern's, the draws made are those of the random fill, the rest of the
    globals is kept. *)
Lemma load_pattern_getitem (pattern_index : Z) (p : Pattern) (w : World) :
  shape (current_grid w) → getitem patterns pattern_index = Some p →
  ∃ g, load_pattern pattern_index w
         = Some {| state := state w; current_grid := g; next_grid := next_grid w;
                   rand_calls :=
                     if String.eqb (name p) "Random"
                     then (rand_calls w + Z.to_nat GRID_HEIGHT * Z.to_nat GRID_WIDTH)%nat
                     else rand_calls w;
                   storage := storage w |} ∧
       shape g ∧
       ∀ x y, in_bounds x y = true →
         grid_get g x y = Some (if stamped_by p (rand_calls w) x y then ALIVE else DEAD).
Proof.
  intros Hs Hp. unfold load_pattern.
  destruct (clear_grid_spec w Hs) as (g0 & -> & Hs0 & Hdead). simpl.
  rewrite Hp. simpl. unfold stamped_by.
  destruct (String.eqb (name p) "Random").
  - destruct (random_fill_spec g0 (rand_calls w) Hs0) as (g & -> & Hg & Hcells).
    simpl. by exists g.
  - destruct (placement_offset (name p)) as [ox oy]. simpl.
    destruct (stamp_spec ox oy (cells p) g0 Hs0) as (g & -> & Hg & Hcells).
    simpl. exists g. split; [done|]. split; [done|].
    intros x y Hb. rewrite Hcells, Hdead by done. by destruct (stamped _ _ _ _ _).
Qed.

Lemma load_pattern_no_pattern (pattern_index : Z) (w : World) :
  getitem patterns pattern_index = None → load_pattern pattern_index w = None.
Proof.
  intros Hp. unfold load_pattern.
  destruct (clear_grid w) as [w0|]; simpl; [|done]. by rewrite Hp.
Qed.

(** X1. [load_pattern] accepts exactly the indices Python accepts for a list
    of 9 patterns: it returns for [-9 <= pattern_index < 9] and raises outside;
    a negative index loads the pattern counted from the end of the list. *)
Theorem load_pattern_index_range (pattern_index : Z) (w : World) :
  shape (current_grid w) →
  (is_Some (load_pattern pattern_index w) ↔ -9 ≤ pattern_index < 9) ∧
  (-9 ≤ pattern_index < 0 →
     load_pattern pattern_index w = load_pattern (pattern_index + 9) w).
Proof.
  intros Hs. split.
  - rewrite <- (getitem_patterns_is_Some pattern_index). split.
    + intros [w' Hw']. destruct (getitem patterns pattern_index) eqn:Hp; [done|].
      by rewrite load_pattern_no_pattern in Hw'.
    + intros [p Hp].
      destruct (load_pattern_getitem _ _ _ Hs Hp) as (g & -> & _). done.
  - intros Hi. unfold load_pattern.
    by rewrite (getitem_patterns_negative pattern_index).
Qed.

(** X2. Loading a named pattern does not depend on what the grid held and
    makes no draw: two loads of the same pattern from any two grids leave the
    same grid, and loading again right after a load changes nothing. *)
Theorem load_pattern_idempotent (pattern_index : Z) (p : Pattern) (w1 w2 : World) :
  shape (current_grid w1) → shape (current_grid w2) →
  getitem patterns pattern_index = Some p → name p ≠ "Random" →
  ∃ w1' w2',
    load_pattern pattern_index w1 = Some w1' ∧
    load_pattern pattern_index w2 = Some w2' ∧
    current_grid w1' = current_grid w2' ∧
    rand_calls w1' = rand_calls w1 ∧
    load_pattern pattern_index w1' = Some w1'.
Proof.
  intros Hs1 Hs2 Hp Hname. apply String.eqb_neq in Hname.
  destruct (load_pattern_getitem _ _ _ Hs1 Hp) as (g1 & Hrun1 & Hg1 & Hc1).
  destruct (load_pattern_getitem _ _ _ Hs2 Hp) as (g2 & Hrun2 & Hg2 & Hc2).
  rewrite Hname in Hrun1, Hrun2.
  assert (Hindep : ∀ k1 k2 x y, stamped_by p k1 x y = stamped_by p k2 x y).
  { intros. unfold stamped_by. by rewrite Hname. }
  eexists _, _. split; [exact Hrun1|]. split; [exact Hrun2|]. simpl.
  split; [|split; [done|]].
  - apply grid_ext; [done..|]. intros x y Hb.
    rewrite Hc1, Hc2 by done. by rewrite (Hindep (rand_calls w1) (rand_calls w2)).
  - match goal with |- load_pattern _ ?u = _ => set (w' := u) end.
    destruct (load_pattern_getitem _ _ w' Hg1 Hp) as (g3 & Hrun3 & Hg3 & Hc3).
    rewrite Hname in Hrun3. rewrite Hrun3. unfold w'. simpl. do 2 f_equal.
    apply grid_ext; [done..|]. intros x y Hb.
    rewrite Hc1, Hc3 by done. simpl. done.
Qed.

Lemma in_bounds_placed (offset_x offset_y cx cy : Z) :
  0 ≤ offset_x + cx < GRID_WIDTH → 0 ≤ offset_y + cy < GRID_HEIGHT →
  in_bounds (offset_x + cx) (offset_y + cy) = true.
Proof. intros Hx Hy. by apply in_bounds_true. Qed.

(** On a grid of at least 41 by 13 cells every offset of every named pattern
    is placed inside the grid. *)
Lemma patterns_fit :
  41 ≤ GRID_WIDTH → 13 ≤ GRID_HEIGHT →
  Forall (λ p, name p ≠ "Random" →
            Forall (λ c, in_bounds ((placement_offset (name p)).1 + c.1)
                           ((placement_offset (name p)).2 + c.2) = true)
              (cells p)) patterns.
Proof.
  intros Hw Hh.
  assert (Hw2 : 20 ≤ GRID_WIDTH `div` 2 ∧ 2 * (GRID_WIDTH `div` 2) ≤ GRID_WIDTH).
  { generalize GRID_WIDTH Hw. intros n Hn. Z.div_mod_to_equations. lia. }
  assert (Hh2 : 6 ≤ GRID_HEIGHT `div` 2 ∧ 2 * (GRID_HEIGHT `div` 2) ≤ GRID_HEIGHT).
  { generalize GRID_HEIGHT Hh. intros n Hn. Z.div_mod_to_equations. lia. }
  assert (Hh3 : 0 ≤ GRID_HEIGHT `div` 3 ∧ 3 * (GRID_HEIGHT `div` 3) ≤ GRID_HEIGHT).
  { generalize GRID_HEIGHT Hh. intros n Hn. Z.div_mod_to_equations. lia. }
  unfold patterns.
  repeat (apply Forall_cons; split;
    [ intros _; cbn [name cells placement_offset String.eqb Ascii.eqb Bool.eqb fst snd];
      repeat (apply Forall_cons; split;
                [cbn [fst snd]; apply in_bounds_placed; lia|]);
      constructor |]).
  constructor.
Qed.

(** X3. On every display whose grid is at least 41 cells wide and 13 cells
    tall (the device has 74 by 25) no named pattern is clipped: after
    [load_pattern] each offset of the pattern, translated by the placement
    offset, is an ALIVE cell of the grid. *)
Theorem load_pattern_fits (pattern_index : Z) (p : Pattern) (w : World) (cx cy : Z) :
  41 ≤ GRID_WIDTH → 13 ≤ GRID_HEIGHT →
  shape (current_grid w) →
  getitem patterns pattern_index = Some p → name p ≠ "Random" →
  (cx, cy) ∈ cells p →
  ∃ w', load_pattern pattern_index w = Some w' ∧
        0 ≤ (placement_offset (name p)).1 + cx < GRID_WIDTH ∧
        0 ≤ (placement_offset (name p)).2 + cy < GRID_HEIGHT ∧
        grid_get (current_grid w') ((placement_offset (name p)).1 + cx)
          ((placement_offset (name p)).2 + cy) = Some ALIVE.
Proof.
  intros Hw Hh Hs Hp Hname Hin.
  destruct (load_pattern_getitem _ _ _ Hs Hp) as (g & Hrun & _ & Hcells).
  assert (Hpin : p ∈ patterns).
  { unfold getitem in Hp. destruct (py_index _ _) as [k|]; simpl in Hp; [|done].
    by eapply list_elem_of_lookup_2. }
  pose proof (patterns_fit Hw Hh) as Hfit. rewrite Forall_forall in Hfit.
  specialize (Hfit p Hpin Hname). rewrite Forall_forall in Hfit.
  specialize (Hfit (cx, cy) Hin). simpl in Hfit.
  eexists. split; [exact Hrun|]. simpl.
  apply in_bounds_true in Hfit as Hb. split; [tauto|]. split; [tauto|].
  rewrite Hcells by done. unfold stamped_by.
  apply String.eqb_neq in Hname. rewrite Hname. unfold stamped.
  rewrite bool_decide_true; [done|].
  by replace ((placement_offset (name p)).1 + cx - (placement_offset (name p)).1)
    with cx by lia;
  replace ((placement_offset (name p)).2 + cy - (placement_offset (name p)).2)
    with cy by lia.
Qed.

Lemma is_alive_get (g : Grid) (x y c : Z) :
  in_bounds x y = true → grid_get g x y = Some c →
  is_alive g x y = (c =? 1).
Proof.
  intros Hb Hc. apply in_bounds_true in Hb. unfold is_alive. rewrite Hc.
  destruct (Z.eqb_spec c 1) as [->|Hne].
  - apply bool_decide_true. tauto.
  - apply bool_decide_false. intros Hn. destruct Hn as (_ & _ & Heq).
    injection Heq as Heq. done.
Qed.

Lemma is_alive_outside (g : Grid) (x y : Z) :
  ¬ (0 ≤ x < GRID_WIDTH ∧ 0 ≤ y < GRID_HEIGHT) → is_alive g x y = false.
Proof. intros Hout. apply bool_decide_false. tauto. Qed.

(** X4. The empty board is a fixed point: when every cell is DEAD, a step
    leaves every cell DEAD, whatever the size of the grid and the contents of
    the scratch buffer. *)
Theorem update_game_dead_grid (w : World) :
  shape (current_grid w) → shape (next_grid w) →
  (∀ x y, 0 ≤ x < GRID_WIDTH → 0 ≤ y < GRID_HEIGHT →
     grid_get (current_grid w) x y = Some DEAD) →
  ∃ w', update_game w = Some w' ∧ current_grid w' = current_grid w.
Proof.
  intros Hcur Hnext Hdead.
  assert (Hdead' : ∀ x y, in_bounds x y = true →
            grid_get (current_grid w) x y = Some DEAD).
  { intros x y Hb. apply in_bounds_true in Hb. apply Hdead; tauto. }
  assert (Hbin : binary (current_grid w)).
  { apply binary_of_cells; [done|]. intros x y Hb. exists DEAD. auto. }
  destruct (update_game_spec w) as (g & Hrun & Hg & Hcells); [done|].
  eexists. split; [exact Hrun|]. simpl. apply grid_ext; [done..|].
  intros x y Hb. destruct (Hcells x y Hb) as (c & Hc & ->).
  rewrite Hdead' in Hc by done. injection Hc as <-. rewrite Hdead' by done.
  assert (Hn : live_neighbors (current_grid w) x y = 0).
  { unfold live_neighbors, moore. cbn [List.filter fst snd].
    assert (Hno : ∀ nx ny, is_alive (current_grid w) nx ny = false).
    { intros nx ny. destruct (in_bounds nx ny) eqn:Hnb.
      - by rewrite (is_alive_get _ _ _ DEAD Hnb (Hdead' _ _ Hnb)).
      - apply is_alive_outside. by apply in_bounds_false. }
    by rewrite !Hno. }
  by rewrite Hn.
Qed.

(** X5. A step is local: the next state of an in-bounds cell depends only on
    the cell and on its Moore neighbourhood. Two games that agree there give
    the cell the same next state, whatever the rest of their grids. *)
Theorem update_game_local (w1 w2 : World) (x y : Z) :
  wf w1 → wf w2 → 0 ≤ x < GRID_WIDTH → 0 ≤ y < GRID_HEIGHT →
  (∀ nx ny, x - 1 ≤ nx ≤ x + 1 → y - 1 ≤ ny ≤ y + 1 →
     0 ≤ nx < GRID_WIDTH → 0 ≤ ny < GRID_HEIGHT →
     grid_get (current_grid w1) nx ny = grid_get (current_grid w2) nx ny) →
  ∃ w1' w2',
    update_game w1 = Some w1' ∧ update_game w2 = Some w2' ∧
    grid_get (current_grid w1') x y = grid_get (current_grid w2') x y.
Proof.
  intros Hw1 Hw2 Hx Hy Hagree.
  assert (Hb : in_bounds x y = true) by (by apply in_bounds_true).
  destruct (update_game_spec w1 Hw1) as (g1 & Hrun1 & _ & Hc1).
  destruct (update_game_spec w2 Hw2) as (g2 & Hrun2 & _ & Hc2).
  eexists _, _. split; [exact Hrun1|]. split; [exact Hrun2|]. simpl.
  destruct (Hc1 x y Hb) as (c1 & Hget1 & ->).
  destruct (Hc2 x y Hb) as (c2 & Hget2 & ->).
  rewrite (Hagree x y) in Hget1 by lia. rewrite Hget1 in Hget2. injection Hget2 as <-.
  assert (Halive : ∀ nx ny, x - 1 ≤ nx ≤ x + 1 → y - 1 ≤ ny ≤ y + 1 →
            is_alive (current_grid w1) nx ny = is_alive (current_grid w2) nx ny).
  { intros nx ny Hnx Hny. unfold is_alive.
    destruct (decide (0 ≤ nx < GRID_WIDTH ∧ 0 ≤ ny < GRID_HEIGHT)) as [[? ?]|Hout].
    - by rewrite Hagree.
    - rewrite !bool_decide_false; [done | tauto | tauto]. }
  do 2 f_equal. unfold live_neighbors, moore. cbn [List.filter fst snd].
  by rewrite !Halive by lia.
Qed.

(** X6. The scratch buffer is write-only for a step: its contents never
    show in the result, every one of its cells being overwritten, and after
    the step it is the grid of the previous generation. *)
Theorem update_game_scratch (w : World) (scratch : Grid) :
  wf w → shape scratch →
  ∃ w1 w2,
    update_game w = Some w1 ∧
    update_game {| state := state w; current_grid := current_grid w;
                   next_grid := scratch; rand_calls := rand_calls w;
                   storage := storage w |} = Some w2 ∧
    w1 = w2 ∧ next_grid w1 = current_grid w.
Proof.
  intros Hw Hscratch.
  set (w' := {| state := state w; current_grid := current_grid w;
                next_grid := scratch; rand_calls := rand_calls w;
                storage := storage w |}).
  assert (Hw' : wf w').
  { destruct Hw as (Hc & Hn & Hb). split; [exact Hc|]. split; [exact Hscratch | exact Hb]. }
  destruct (update_game_spec w Hw) as (g1 & Hrun1 & Hg1 & Hc1).
  destruct (update_game_spec w' Hw') as (g2 & Hrun2 & Hg2 & Hc2).
  eexists _, _. split; [exact Hrun1|]. split; [exact Hrun2|]. simpl.
  split; [|done]. f_equal. apply grid_ext; [done..|]. intros x y Hb.
  destruct (Hc1 x y Hb) as (c1 & Hget1 & ->).
  destruct (Hc2 x y Hb) as (c2 & Hget2 & ->).
  subst w'. simpl in *. congruence.
Qed.

(** X7. Cells on the border have fewer neighbours, positions outside the
    grid being skipped: [count_neighbors] is at most 5 for a cell of the
    first or last column or row, and at most 3 for a corner cell. *)
Theorem count_neighbors_border (w : World) (x y : Z) :
  shape (current_grid w) → binary (current_grid w) →
  0 ≤ x < GRID_WIDTH → 0 ≤ y < GRID_HEIGHT →
  ∃ n, count_neighbors w x y = Some n ∧
       (x = 0 ∨ x = GRID_WIDTH - 1 ∨ y = 0 ∨ y = GRID_HEIGHT - 1 → n ≤ 5) ∧
       ((x = 0 ∨ x = GRID_WIDTH - 1) ∧ (y = 0 ∨ y = GRID_HEIGHT - 1) → n ≤ 3).
Proof.
  intros Hs Hbin Hx Hy. eexists. split; [by apply count_neighbors_spec|].
  unfold live_neighbors, moore. cbn [List.filter fst snd].
  split.
  - intros Hedge.
    destruct Hedge as [-> | [-> | [-> | ->]]];
      rewrite ?(is_alive_outside _ (0 - 1)), ?(is_alive_outside _ _ (0 - 1)),
        ?(is_alive_outside _ (GRID_WIDTH - 1 + 1)),
        ?(is_alive_outside _ _ (GRID_HEIGHT - 1 + 1)) by lia;
      repeat (destruct (is_alive _ _ _)); simpl; lia.
  - intros [Hcx Hcy].
    destruct Hcx as [-> | ->], Hcy as [-> | ->];
      rewrite ?(is_alive_outside _ (0 - 1)), ?(is_alive_outside _ _ (0 - 1)),
        ?(is_alive_outside _ (GRID_WIDTH - 1 + 1)),
        ?(is_alive_outside _ _ (GRID_HEIGHT - 1 + 1)) by lia;
      repeat (destruct (is_alive _ _ _)); simpl; lia.
Qed.

(** ** Drawing *)

Lemma elem_of_range (n x : Z) : x ∈ range n ↔ 0 ≤ x < n.
Proof.
  unfold range. rewrite list_elem_of_fmap. split.
  - intros (k & -> & Hk). apply elem_of_seq in Hk. lia.
  - intros Hx. exists (Z.to_nat x). split; [lia|]. apply elem_of_seq. lia.
Qed.

Lemma NoDup_range (n : Z) : NoDup (range n).
Proof. unfold range. apply NoDup_fmap_2; [apply _ | apply NoDup_seq]. Qed.

(** A loop whose body only appends to a trace appends the pieces in order. *)
Lemma for_in_emit {A B} (l : list A) (body : A → list B → option (list B))
    (f : A → list B) (ops : list B) :
  (∀ a, a ∈ l → ∀ ops, body a ops = Some (ops ++ f a)) →
  for_in l body ops = Some (ops ++ (l ≫= f)).
Proof.
  revert ops. induction l as [|a l IH]; intros ops Hbody.
  - simpl. by rewrite app_nil_r.
  - rewrite bind_cons, app_assoc. cbn [for_in].
    rewrite Hbody by apply list_elem_of_here. simpl.
    apply IH. intros. apply Hbody. by apply list_elem_of_further.
Qed.

Lemma fmap_bind_list {A B C} (f : B → C) (g : A → list B) (l : list A) :
  f <$> (l ≫= g) = l ≫= (λ a, f <$> g a).
Proof.
  induction l as [|a l IH]; [done|].
  by rewrite !bind_cons, fmap_app, IH.
Qed.

Lemma elem_of_live_cells (g : Grid) (x y : Z) :
  (x, y) ∈ live_cells g ↔
  0 ≤ x < GRID_WIDTH ∧ 0 ≤ y < GRID_HEIGHT ∧ grid_get g x y = Some ALIVE.
Proof.
  unfold live_cells. rewrite list_elem_of_bind. split.
  - intros (y' & Hin & Hy'). apply list_elem_of_bind in Hin as (x' & Hin & Hx').
    destruct (is_alive g x' y') eqn:Halive; [|by apply elem_of_nil in Hin].
    apply list_elem_of_singleton in Hin. injection Hin as -> ->.
    unfold is_alive in Halive. by apply bool_decide_eq_true in Halive.
  - intros (Hx & Hy & Hget). exists y. split; [|by apply elem_of_range].
    apply list_elem_of_bind. exists x. split; [|by apply elem_of_range].
    unfold is_alive. rewrite bool_decide_true by done. apply list_elem_of_here.
Qed.

Lemma NoDup_live_cells (g : Grid) : NoDup (live_cells g).
Proof.
  unfold live_cells. apply NoDup_bind; [| |apply NoDup_range].
  - intros y1 y2 [x y] _ _ H1 H2.
    apply list_elem_of_bind in H1 as (x1 & H1 & _).
    apply list_elem_of_bind in H2 as (x2 & H2 & _).
    destruct (is_alive g x1 y1); [|by apply elem_of_nil in H1].
    destruct (is_alive g x2 y2); [|by apply elem_of_nil in H2].
    apply list_elem_of_singleton in H1, H2. congruence.
  - intros y _. apply NoDup_bind; [| |apply NoDup_range].
    + intros x1 x2 [x y'] _ _ H1 H2.
      destruct (is_alive g x1 y); [|by apply elem_of_nil in H1].
      destruct (is_alive g x2 y); [|by apply elem_of_nil in H2].
      apply list_elem_of_singleton in H1, H2. congruence.
    + intros x _. destruct (is_alive g x y); [apply NoDup_singleton | constructor].
Qed.

Lemma cell_pixel_row (y : Z) :
  0 ≤ y < GRID_HEIGHT → y * CELL_SIZE + 25 + CELL_SIZE ≤ HEIGHT.
Proof.
  unfold GRID_HEIGHT, CELL_SIZE, UI_HEIGHT. intros Hy.
  pose proof (Z.mul_div_le (HEIGHT - 25) 4). lia.
Qed.

Lemma cell_pixel_column (x : Z) :
  0 ≤ x < GRID_WIDTH → x * CELL_SIZE + CELL_SIZE ≤ WIDTH.
Proof.
  unfold GRID_WIDTH, CELL_SIZE. intros Hx.
  pose proof (Z.mul_div_le WIDTH 4). lia.
Qed.

(** What [draw_grid] sends to the display: the clearing of the screen, one
    square per live cell in row order, the status bar, the refresh. *)
Lemma draw_grid_spec (w : World) (ui : list DisplayOp) :
  shape (current_grid w) → draw_ui w = Some ui →
  draw_grid w
    = Some ([display_set_pen 15; display_clear; display_set_pen 0]
            ++ (cell_rectangle <$> live_cells (current_grid w))
            ++ ui ++ [display_update]).
Proof.
  intros Hs Hui. unfold draw_grid.
  rewrite (for_in_emit _ _
             (λ y, cell_rectangle <$>
                     (range GRID_WIDTH ≫= λ x,
                        if is_alive (current_grid w) x y then [(x, y)] else []))).
  - simpl. rewrite Hui. simpl. unfold live_cells. by rewrite fmap_bind_list.
  - intros y Hy ops. apply elem_of_range in Hy.
    rewrite fmap_bind_list. apply for_in_emit.
    intros x Hx ops'. apply elem_of_range in Hx.
    assert (Hb : in_bounds x y = true) by (by apply in_bounds_true).
    destruct (grid_get_is_Some _ _ _ Hs Hb) as [c Hc]. rewrite Hc. simpl.
    rewrite (is_alive_get _ _ _ c Hb Hc).
    destruct (c =? 1); [|by rewrite app_nil_r].
    pose proof (cell_pixel_row y Hy) as Hrow.
    apply Z.leb_le in Hrow. rewrite Hrow. done.
Qed.

Lemma draw_ui_is_Some (w : World) :
  is_Some (draw_ui w) ↔ - len_patterns ≤ pattern (state w) < len_patterns.
Proof.
  rewrite <- getitem_patterns_is_Some. unfold draw_ui.
  destruct (getitem patterns (pattern (state w))) as [p|]; simpl.
  - destruct (paused (state w)); split; eauto.
  - split; by intros [? ?].
Qed.

(** X8. [draw_grid] draws exactly the live cells: on a grid of the right
    shape and a pattern index Python accepts it returns, and between the
    clearing of the screen and the status bar it draws one square per ALIVE
    cell, each cell once, at 4 pixels per cell below the 25 pixels of the
    bar; the test against the bottom of the screen never leaves a cell out. *)
Theorem draw_grid_live_cells (w : World) :
  shape (current_grid w) →
  -9 ≤ pattern (state w) < 9 →
  ∃ drawn ui,
    draw_ui w = Some ui ∧
    draw_grid w
      = Some ([display_set_pen 15; display_clear; display_set_pen 0]
              ++ ((λ c, display_rectangle (c.1 * 4) (c.2 * 4 + 25) 3 3) <$> drawn)
              ++ ui ++ [display_update]) ∧
    NoDup drawn ∧
    ∀ x y, (x, y) ∈ drawn ↔
           0 ≤ x < GRID_WIDTH ∧ 0 ≤ y < GRID_HEIGHT ∧
           grid_get (current_grid w) x y = Some ALIVE.
Proof.
  intros Hs Hi.
  destruct (proj2 (draw_ui_is_Some w) Hi) as [ui Hui].
  exists (live_cells (current_grid w)), ui. split; [done|].
  split; [by apply draw_grid_spec|]. split; [apply NoDup_live_cells|].
  intros x y. apply elem_of_live_cells.
Qed.

(** X9. The squares [draw_grid] draws for the cells stay on the screen and
    off the status bar, and do not touch each other: each is 3 by 3 pixels
    inside the display and below the 25 rows of the bar, and any two of them
    are separated by at least one pixel. *)
Theorem draw_grid_squares (w : World) :
  shape (current_grid w) →
  -9 ≤ pattern (state w) < 9 →
  ∃ squares ui,
    draw_ui w = Some ui ∧
    draw_grid w
      = Some ([display_set_pen 15; display_clear; display_set_pen 0]
              ++ squares ++ ui ++ [display_update]) ∧
    (∀ i op, squares !! i = Some op →
       ∃ px py, op = display_rectangle px py 3 3 ∧
                0 ≤ px ∧ px + 3 ≤ WIDTH ∧ UI_HEIGHT ≤ py ∧ py + 3 ≤ HEIGHT) ∧
    (∀ i j px py qx qy, i ≠ j →
       squares !! i = Some (display_rectangle px py 3 3) →
       squares !! j = Some (display_rectangle qx qy 3 3) →
       px + 3 < qx ∨ qx + 3 < px ∨ py + 3 < qy ∨ qy + 3 < py).
Proof.
  clear random. intros Hs Hi.
  destruct (proj2 (draw_ui_is_Some w) Hi) as [ui Hui].
  exists (cell_rectangle <$> live_cells (current_grid w)), ui. split; [done|].
  split; [by apply draw_grid_spec|].
  assert (Hcell : ∀ i op,
            (cell_rectangle <$> live_cells (current_grid w)) !! i = Some op →
            ∃ x y, live_cells (current_grid w) !! i = Some (x, y) ∧
                   op = display_rectangle (x * 4) (y * 4 + 25) 3 3 ∧
                   0 ≤ x < GRID_WIDTH ∧ 0 ≤ y < GRID_HEIGHT).
  { intros i op Hop. rewrite list_lookup_fmap in Hop.
    destruct (live_cells (current_grid w) !! i) as [[x y]|] eqn:Hc; [|done].
    injection Hop as <-. exists x, y. split; [done|]. split; [done|].
    apply list_elem_of_lookup_2, elem_of_live_cells in Hc. tauto. }
  split.
  - intros i op Hop. destruct (Hcell i op Hop) as (x & y & _ & -> & Hx & Hy).
    exists (x * 4), (y * 4 + 25). split; [done|].
    pose proof (cell_pixel_row y Hy) as Hrow.
    pose proof (cell_pixel_column x Hx) as Hcol.
    unfold CELL_SIZE in Hrow, Hcol. unfold UI_HEIGHT. lia.
  - intros i j px py qx qy Hij Hp Hq.
    destruct (Hcell i _ Hp) as (x & y & Hci & Hpe & _).
    destruct (Hcell j _ Hq) as (x' & y' & Hcj & Hqe & _).
    injection Hpe as -> ->. injection Hqe as -> ->.
    assert (Hne : (x, y) ≠ (x', y')).
    { intros Heq. rewrite <- Heq in Hcj.
      by pose proof (NoDup_lookup _ _ _ _ (NoDup_live_cells _) Hci Hcj). }
    destruct (decide (x = x')) as [->|]; [|lia].
    destruct (decide (y = y')) as [->|]; [done|lia].
Qed.

(** X10. The status bar shows the pause indicator exactly when the game is
    paused: when it is, [draw_ui] ends with a grey box on rows 2 to 21 of the
    bar, centred on the screen to within one pixel whatever the measured
    width of the text, and the text PAUSED 2 pixels inside it; when it is
    not, nothing is drawn with the grey pen. *)
Theorem draw_ui_pause_indicator (w : World) (ui : list DisplayOp) :
  draw_ui w = Some ui →
  let pause_width := measure_text "PAUSED" 0.8%float in
  if paused (state w) then
    ∃ bar box_x,
      ui = bar ++ [ display_set_pen 12;
                    display_rectangle box_x 2 (pause_width + 4) 20;
                    display_set_pen 0;
                    display_text "PAUSED" (box_x + 2) 15 WIDTH 0.8%float ] ∧
      0 ≤ (WIDTH - (box_x + (pause_width + 4))) - box_x ≤ 1
  else display_set_pen 12 ∉ ui.
Proof.
  unfold draw_ui.
  destruct (getitem patterns (pattern (state w))) as [p|]; simpl; [|done].
  destruct (paused (state w)); intros [= <-].
  - eexists (_ :: _ :: _ :: _ :: _ :: _ :: [_]),
      ((WIDTH - measure_text "PAUSED" 0.8%float) `div` 2 - 2).
    split.
    + simpl. repeat f_equal. lia.
    + Z.div_mod_to_equations. lia.
  - rewrite !not_elem_of_cons. repeat split; try done. apply not_elem_of_nil.
Qed.

(** ** The application *)

Lemma load_pattern_accepted (pattern_index : Z) (w : World) :
  wf w → - len_patterns ≤ pattern_index < len_patterns →
  ∃ w', load_pattern pattern_index w = Some w' ∧ wf w' ∧ state w' = state w ∧
        storage w' = storage w.
Proof.
  intros (Hcur & Hnext & _) Hi.
  destruct (proj2 (getitem_patterns_is_Some pattern_index) Hi) as [p Hp].
  destruct (load_pattern_getitem pattern_index p w Hcur Hp) as (g & -> & Hg & Hcells).
  eexists. split; [reflexivity|]. split; [|done].
  split; [done|]. split; [done|]. simpl.
  apply binary_of_cells; [done|]. intros x y Hb. rewrite Hcells by done.
  eexists. split; [reflexivity|]. destruct (stamped_by _ _ _ _); auto.
Qed.

(** What every pass of the main loop keeps: well-formed buffers and a
    pattern index Python accepts. *)
Lemma dispatch_button_accepted (button_pressed : Button) (w : World) :
  wf w → - len_patterns ≤ pattern (state w) < len_patterns →
  ∃ w', dispatch_button button_pressed w = Some w' ∧ wf w' ∧
        - len_patterns ≤ pattern (state w') < len_patterns.
Proof.
  intros Hw Hi. assert (Hn : 0 < len_patterns) by done.
  destruct (decide (0 ≤ pattern (state w))) as [Hpos|Hneg].
  - destruct (dispatch_button_wf button_pressed w Hw) as (w' & Hrun & Hw' & Hi' & _);
      [lia|]. exists w'. split; [done|]. split; [done|]. lia.
  - unfold dispatch_button. destruct button_pressed.
    + pose proof (Z.mod_pos_bound (pattern (state w) - 1) len_patterns Hn) as Hj.
      destruct (load_pattern_wf ((pattern (state w) - 1) `mod` len_patterns)
        (set_state (set_generation 0 (set_pattern
           ((pattern (state w) - 1) `mod` len_patterns) (state w))) w) Hw Hj)
        as (w' & Hrun & Hw' & Hst).
      unfold set_state, set_generation, set_pattern in *. simpl in *.
      rewrite Hrun. simpl. eexists. split; [reflexivity|].
      simpl. rewrite Hst. simpl. split; [done|]. lia.
    + eexists. split; [reflexivity|]. done.
    + pose proof (Z.mod_pos_bound (pattern (state w) + 1) len_patterns Hn) as Hj.
      destruct (load_pattern_wf ((pattern (state w) + 1) `mod` len_patterns)
        (set_state (set_generation 0 (set_pattern
           ((pattern (state w) + 1) `mod` len_patterns) (state w))) w) Hw Hj)
        as (w' & Hrun & Hw' & Hst).
      unfold set_state, set_generation, set_pattern in *. simpl in *.
      rewrite Hrun. simpl. eexists. split; [reflexivity|].
      simpl. rewrite Hst. simpl. split; [done|]. lia.
    + destruct (paused (state w)).
      * destruct (update_game_wf w Hw) as (w' & -> & Hw' & Hst).
        simpl. eexists. split; [reflexivity|]. simpl. rewrite Hst. done.
      * eexists. split; [reflexivity|]. done.
    + destruct (load_pattern_accepted (pattern (state w))
        (set_state (set_generation 0 (state w)) w) Hw Hi) as (w' & Hrun & Hw' & Hst & _).
      unfold set_state, set_generation in *. simpl in *.
      rewrite Hrun. simpl. eexists. split; [reflexivity|].
      simpl. rewrite Hst. done.
Qed.

Lemma main_loop_accepted (inputs : list (option Button * bool)) (w : World) :
  wf w → - len_patterns ≤ pattern (state w) < len_patterns →
  ∃ w', main_loop inputs w = Some w' ∧ wf w' ∧
        - len_patterns ≤ pattern (state w') < len_patterns.
Proof.
  revert w. induction inputs as [|[b e] inputs IH]; intros w Hw Hi.
  - exists w. done.
  - unfold main_loop. cbn [for_in]. fold (main_loop inputs).
    unfold main_loop_iteration.
    assert (Hb : ∃ w1, match b with
                       | Some b => dispatch_button b w
                       | None => Some w
                       end = Some w1 ∧ wf w1 ∧
                       - len_patterns ≤ pattern (state w1) < len_patterns).
    { destruct b as [b|]; [by apply dispatch_button_accepted | by exists w]. }
    destruct Hb as (w1 & -> & Hw1 & Hi1). simpl.
    destruct (tick_wf e w1 Hw1) as (w2 & Hrun2 & Hw2 & _).
    assert (Hi2 : - len_patterns ≤ pattern (state w2) < len_patterns).
    { unfold tick in Hrun2. destruct (negb (paused (state w1)) && e).
      - destruct (update_game_wf w1 Hw1) as (w3 & Hrun3 & _ & Hst).
        rewrite Hrun3 in Hrun2. injection Hrun2 as <-. by rewrite Hst.
      - by injection Hrun2 as <-. }
    rewrite Hrun2. simpl. by apply IH.
Qed.

Lemma startup_accepted (file : option State) :
  (∀ saved, file = Some saved → - len_patterns ≤ pattern saved) →
  ∃ w, startup file = Some w ∧ wf w ∧
       - len_patterns ≤ pattern (state w) < len_patterns ∧
       state w = match file with
                 | Some saved =>
                     if len_patterns <=? pattern saved then set_pattern 0 saved
                     else saved
                 | None => initial_state
                 end.
Proof.
  intros Hfile. unfold startup.
  assert (Hinit : ∀ st f, - len_patterns ≤ pattern st < len_patterns →
            ∃ w, load_pattern (pattern st)
                   {| state := st; current_grid := empty_grid; next_grid := empty_grid;
                      rand_calls := 0; storage := f |} = Some w ∧
                 wf w ∧ - len_patterns ≤ pattern (state w) < len_patterns ∧
                 state w = st).
  { intros st f Hst.
    destruct (load_pattern_accepted (pattern st)
                {| state := st; current_grid := empty_grid; next_grid := empty_grid;
                   rand_calls := 0; storage := f |}) as (w & Hrun & Hw & Hsame & _);
      [|done|].
    - split; [apply empty_grid_shape|]. split; [apply empty_grid_shape|].
      apply empty_grid_binary.
    - exists w. split; [done|]. split; [done|]. by rewrite Hsame. }
  destruct file as [saved|]; simpl.
  - specialize (Hfile saved eq_refl).
    destruct (Z.leb_spec len_patterns (pattern saved)); apply Hinit; simpl; [done|lia].
  - apply Hinit. done.
Qed.

(** X11. The application never raises: from any start (no state file, or
    one whose pattern index is at least -9) and through any sequence of main
    loop passes, with any buttons pressed and any timing, every list access
    stays within bounds; both buffers keep their shape, every cell stays 0
    or 1, the pattern index stays one Python accepts, and the screen can be
    drawn. *)
Theorem main_loop_safe (file : option State) (inputs : list (option Button * bool)) :
  (∀ saved, file = Some saved → -9 ≤ pattern saved) →
  ∃ w0 w,
    startup file = Some w0 ∧ main_loop inputs w0 = Some w ∧
    wf w ∧ -9 ≤ pattern (state w) < 9 ∧ is_Some (draw_grid w).
Proof.
  intros Hfile.
  destruct (startup_accepted file Hfile) as (w0 & Hstart & Hw0 & Hi0 & _).
  destruct (main_loop_accepted inputs w0 Hw0 Hi0) as (w & Hrun & Hw & Hi).
  exists w0, w. split; [done|]. split; [done|]. split; [done|]. split; [done|].
  destruct (proj2 (draw_ui_is_Some w) Hi) as [ui Hui].
  rewrite (draw_grid_spec w ui); [done | by destruct Hw | done].
Qed.

(** X12. Start-up checks the restored pattern index against the end of the
    list only: a saved index of 9 or more is replaced by 0, a saved index
    from -9 to -1 is kept as it is (Python then counts from the end of the
    list), and a saved index below -9 makes start-up raise. *)
Theorem startup_index_range (saved : State) :
  (is_Some (startup (Some saved)) ↔ -9 ≤ pattern saved) ∧
  (∀ w, startup (Some saved) = Some w →
        state w = if 9 <=? pattern saved then set_pattern 0 saved else saved).
Proof.
  split; [split|].
  - intros [w Hw]. unfold startup in Hw. simpl in Hw.
    destruct (Z.leb_spec len_patterns (pattern saved)) as [Hge|Hlt];
      [unfold len_patterns in Hge; simpl in Hge; lia|].
    assert (Hsome : is_Some (getitem patterns (pattern saved))).
    { destruct (getitem patterns (pattern saved)) eqn:Hp; [done|].
      by rewrite load_pattern_no_pattern in Hw. }
    apply getitem_patterns_is_Some in Hsome.
    unfold len_patterns in Hsome. simpl in Hsome. lia.
  - intros Hi.
    destruct (startup_accepted (Some saved)) as (w & -> & _); [|done].
    intros ? [= <-]. done.
  - intros w Hw.
    destruct (decide (-9 ≤ pattern saved)) as [Hi|Hi].
    + destruct (startup_accepted (Some saved)) as (w' & Hw' & _ & _ & Hst).
      { intros ? [= <-]. done. }
      rewrite Hw in Hw'. injection Hw' as <-. exact Hst.
    + unfold startup in Hw. simpl in Hw.
      destruct (Z.leb_spec len_patterns (pattern saved)) as [Hge|Hlt];
        [unfold len_patterns in Hge; simpl in Hge; lia|].
      rewrite load_pattern_no_pattern in Hw; [done|].
      destruct (getitem patterns (pattern saved)) eqn:Hp; [|done].
      assert (Hsome : is_Some (getitem patterns (pattern saved))) by (by rewrite Hp).
      apply getitem_patterns_is_Some in Hsome.
      unfold len_patterns in Hsome. simpl in Hsome. lia.
Qed.

Lemma stamped_by_named (p : Pattern) (k1 k2 : nat) (x y : Z) :
  name p ≠ "Random" → stamped_by p k1 x y = stamped_by p k2 x y.
Proof.
  intros Hname. apply String.eqb_neq in Hname. unfold stamped_by. by rewrite Hname.
Qed.

(** X13. Next then previous, and previous then next, come back to the
    pattern they left: for a named pattern, pressing C then A, or A then C,
    leaves the same state dictionary and the same grid as pressing the reset
    control (DOWN), whatever the grid held and whichever pattern was passed
    through. *)
Theorem next_previous_round_trip (w : World) (p : Pattern) :
  shape (current_grid w) → 0 ≤ pattern (state w) < 9 →
  patterns !! Z.to_nat (pattern (state w)) = Some p → name p ≠ "Random" →
  ∃ w_reset w_ca w_ac,
    dispatch_button button_down w = Some w_reset ∧
    dispatch_button button_c w ≫= dispatch_button button_a = Some w_ca ∧
    dispatch_button button_a w ≫= dispatch_button button_c = Some w_ac ∧
    state w_ca = state w_reset ∧ current_grid w_ca = current_grid w_reset ∧
    state w_ac = state w_reset ∧ current_grid w_ac = current_grid w_reset.
Proof.
  intros Hs Hi Hp Hname. assert (Hn : 0 < len_patterns) by done.
  assert (Hback : ∀ d, (d = 1 ∨ d = -1) →
    ∃ w_reset w2,
      dispatch_button button_down w = Some w_reset ∧
      (w1 ← load_pattern ((pattern (state w) + d) `mod` len_patterns)
              (set_state (set_generation 0 (set_pattern
                 ((pattern (state w) + d) `mod` len_patterns) (state w))) w);
       Some (state_save w1)) ≫=
      (λ w1, w2 ← load_pattern ((pattern (state w1) - d) `mod` len_patterns)
                    (set_state (set_generation 0 (set_pattern
                       ((pattern (state w1) - d) `mod` len_patterns) (state w1))) w1);
             Some (state_save w2)) = Some w2 ∧
      state w2 = state w_reset ∧ current_grid w2 = current_grid w_reset).
  { intros d Hd.
    destruct (reload_spec (pattern (state w)) p w Hs (proj1 Hi) Hp)
      as (w_reset & Hreset & Hst0 & Hs0 & Hc0).
    pose proof (Z.mod_pos_bound (pattern (state w) + d) len_patterns Hn) as Hj.
    destruct (patterns_lookup _ Hj) as [q Hq].
    destruct (reload_spec _ q w Hs (proj1 Hj) Hq) as (w1 & Hrun1 & Hst1 & Hs1 & _).
    assert (Hi1 : (pattern (state w1) - d) `mod` len_patterns = pattern (state w)).
    { rewrite Hst1. cbn [pattern set_generation set_pattern].
      change len_patterns with 9 in *.
      clear -Hi Hd. destruct Hd as [-> | ->]; Z.div_mod_to_equations; lia. }
    assert (Hp1 : patterns !! Z.to_nat ((pattern (state w1) - d) `mod` len_patterns)
                  = Some p) by (by rewrite Hi1).
    assert (Hpos1 : 0 ≤ (pattern (state w1) - d) `mod` len_patterns)
      by (rewrite Hi1; lia).
    destruct (reload_spec _ p w1 Hs1 Hpos1 Hp1) as (w2 & Hrun2 & Hst2 & Hs2 & Hc2).
    exists w_reset, w2. split.
    { unfold dispatch_button. rewrite <- Hreset.
      unfold set_state, set_generation, set_pattern. simpl.
      by destruct (state w). }
    rewrite Hrun1. simpl. split; [exact Hrun2|].
    split.
    - rewrite Hst2, Hst0, Hi1, Hst1. unfold set_generation, set_pattern. simpl. done.
    - apply grid_ext; [done..|]. intros x y Hb. apply in_bounds_true in Hb.
      rewrite Hc2, Hc0 by tauto.
      by rewrite (stamped_by_named p (rand_calls w1) (rand_calls w)). }
  destruct (Hback 1) as (w_reset & w_ca & Hreset & Hca & Hst_ca & Hg_ca); [by left|].
  destruct (Hback (-1)) as (w_reset' & w_ac & Hreset' & Hac & Hst_ac & Hg_ac);
    [by right|].
  rewrite Hreset in Hreset'. injection Hreset' as <-.
  exists w_reset, w_ca, w_ac. split; [done|].
  split; [exact Hca|]. split; [exact Hac|]. done.
Qed.

(** X14. What a restart brings back: after any button press (which saves
    the state dictionary), starting the module again restores the paused
    flag, the selected pattern and the generation counter as they were
    saved, keeps the state file, and shows the selected pattern as freshly
    loaded, not the grid that was on the screen. *)
Theorem restart_after_press (button_pressed : Button) (w w1 : World) :
  wf w → 0 ≤ pattern (state w) < 9 →
  dispatch_button button_pressed w = Some w1 →
  ∃ w2 p,
    startup (storage w1) = Some w2 ∧
    state w2 = state w1 ∧ storage w2 = storage w1 ∧
    patterns !! Z.to_nat (pattern (state w1)) = Some p ∧
    ∀ x y, 0 ≤ x < GRID_WIDTH → 0 ≤ y < GRID_HEIGHT →
      grid_get (current_grid w2) x y
        = Some (if stamped_by p 0 x y then ALIVE else DEAD).
Proof.
  intros Hw Hi Hrun.
  destruct (dispatch_button_wf button_pressed w Hw Hi)
    as (w1' & Hrun' & Hw1 & Hi1 & Hsto & _).
  rewrite Hrun in Hrun'. injection Hrun' as <-.
  destruct (patterns_lookup _ Hi1) as [p Hp].
  rewrite Hsto. unfold startup. simpl.
  destruct (Z.leb_spec len_patterns (pattern (state w1))) as [Hge|_]; [lia|].
  destruct (load_pattern_spec (pattern (state w1)) p
              {| state := state w1; current_grid := empty_grid;
                 next_grid := empty_grid; rand_calls := 0;
                 storage := Some (state w1) |})
    as (g & k & Hload & Hg & Hcells); [apply empty_grid_shape | lia | done |].
  rewrite Hload. eexists _, p. split; [reflexivity|]. simpl.
  split; [done|]. split; [done|]. split; [done|].
  intros x y Hx Hy. apply Hcells. by apply in_bounds_true.
Qed.

End Engine.

(** ** The blinker and the start-up sequence *)

(** C7. On a 5 by 5 board whose only ALIVE cells are (1,2), (2,2), (3,2),
    one step gives exactly the vertical line (2,1), (2,2), (2,3), and a second
    step gives back exactly the horizontal line. *)
Theorem blinker_oscillates (w : World) :
  current_grid w = horizontal_blinker →
  shape SMALL_WIDTH SMALL_HEIGHT (next_grid w) →
  ∃ w1 w2,
    update_game SMALL_WIDTH SMALL_HEIGHT w = Some w1 ∧
    current_grid w1 = vertical_blinker ∧
    update_game SMALL_WIDTH SMALL_HEIGHT w1 = Some w2 ∧
    current_grid w2 = horizontal_blinker.
Proof.
  intros Hcur Hnext.
  assert (Hh : shape SMALL_WIDTH SMALL_HEIGHT horizontal_blinker) by compute_done.
  assert (Hv : shape SMALL_WIDTH SMALL_HEIGHT vertical_blinker) by compute_done.
  assert (Hw : wf SMALL_WIDTH SMALL_HEIGHT w).
  { unfold wf. rewrite Hcur. split; [done|]. split; [done|]. compute_done. }
  destruct (update_game_spec _ _ w Hw) as (g1 & Hrun1 & _).
  pose proof (update_game_current SMALL_WIDTH SMALL_HEIGHT w blinker_world Hw
                ltac:(compute_done) Hcur) as Heq1.
  rewrite Hrun1 in Heq1. vm_compute in Heq1. injection Heq1 as ->.
  eexists _, _. split; [exact Hrun1|]. split; [reflexivity|].
  match type of Hrun1 with _ = Some ?u => set (w1 := u) in * end.
  assert (Hw1 : wf SMALL_WIDTH SMALL_HEIGHT w1).
  { unfold wf, w1. simpl. rewrite Hcur. split; [done|]. split; [done|]. compute_done. }
  destruct (update_game_spec _ _ w1 Hw1) as (g2 & Hrun2 & _).
  pose proof (update_game_current SMALL_WIDTH SMALL_HEIGHT w1 blinker_world_1 Hw1
                ltac:(compute_done) eq_refl) as Heq2.
  rewrite Hrun2 in Heq2. vm_compute in Heq2. injection Heq2 as ->.
  split; [exact Hrun2|]. reflexivity.
Qed.

Lemma blinker_oscillates_witness :
  current_grid blinker_world = horizontal_blinker ∧
  shape SMALL_WIDTH SMALL_HEIGHT (next_grid blinker_world) ∧
  ∃ w1 w2,
    update_game SMALL_WIDTH SMALL_HEIGHT blinker_world = Some w1 ∧
    current_grid w1 = vertical_blinker ∧
    update_game SMALL_WIDTH SMALL_HEIGHT w1 = Some w2 ∧
    current_grid w2 = horizontal_blinker.
Proof.
  split; [reflexivity|]. split; [compute_done|].
  apply (blinker_oscillates blinker_world); [reflexivity | compute_done].
Defined.

(** C3, on the device: a first start with no state file loads pattern 0 at
    generation 0 and one single step brings the counter to 1 and saves it; the
    next start loads the same fresh pattern but leaves the counter at the
    saved 1 instead of resetting it to 0. *)
Theorem startup_keeps_saved_generation (random : nat → float) :
  ∃ w0 w1 w2,
    startup BADGER_WIDTH BADGER_HEIGHT random None = Some w0 ∧
    generation (state w0) = 0 ∧
    dispatch_button BADGER_WIDTH BADGER_HEIGHT random button_up w0 = Some w1 ∧
    generation (state w1) = 1 ∧
    startup BADGER_WIDTH BADGER_HEIGHT random (storage w1) = Some w2 ∧
    current_grid w2 = current_grid w0 ∧
    generation (state w2) = 1.
Proof.
  eexists _, _, _.
  split; [vm_compute; reflexivity|]. split; [reflexivity|].
  split; [vm_compute; reflexivity|]. split; [reflexivity|].
  split; [vm_compute; reflexivity|]. split; reflexivity.
Qed.

(** ** The properties at concrete boards *)

(** The grid of the device is 74 cells wide and 25 cells tall. *)
Example device_grid :
  GRID_WIDTH BADGER_WIDTH = 74 ∧ GRID_HEIGHT BADGER_HEIGHT = 25.
Proof. split; reflexivity. Qed.

(** On the device every cell of every pattern of the library lands inside the
    grid: nothing is clipped there. *)
Example device_patterns_fit :
  Forall (λ p,
    Forall (λ c,
      in_bounds BADGER_WIDTH BADGER_HEIGHT
        ((placement_offset BADGER_WIDTH BADGER_HEIGHT (name p)).1 + c.1)
        ((placement_offset BADGER_WIDTH BADGER_HEIGHT (name p)).2 + c.2) = true)
      (cells p)) patterns.
Proof. compute_done. Qed.

(** Still life: the block is unchanged by a step. *)
Example block_still :
  current_grid <$> update_game 24 49 block_world = Some block.
Proof. reflexivity. Qed.

(** A lone live cell in the corner has no neighbour and dies. *)
Example corner_cell_dies :
  let w := set_current_grid
             [[1; 0; 0; 0; 0]; [0; 0; 0; 0; 0]; [0; 0; 0; 0; 0];
              [0; 0; 0; 0; 0]; [0; 0; 0; 0; 0]] blinker_world in
  count_neighbors SMALL_WIDTH SMALL_HEIGHT w 0 0 = Some 0 ∧
  (w' ← update_game SMALL_WIDTH SMALL_HEIGHT w; grid_get (current_grid w') 0 0)
    = Some DEAD.
Proof. split; reflexivity. Qed.

(** No wrap-around: live cells along the left edge do not count for the cells
    of the right edge. *)
Example no_wraparound :
  let w := set_current_grid
             [[1; 0; 0; 0; 0]; [1; 0; 0; 0; 0]; [1; 0; 0; 0; 0];
              [1; 0; 0; 0; 0]; [1; 0; 0; 0; 0]] blinker_world in
  count_neighbors SMALL_WIDTH SMALL_HEIGHT w 4 2 = Some 0 ∧
  count_neighbors SMALL_WIDTH SMALL_HEIGHT w 1 2 = Some 3.
Proof. split; reflexivity. Qed.

Lemma update_game_standard_rule_witness :
  wf SMALL_WIDTH SMALL_HEIGHT blinker_world ∧
  0 ≤ 2 < GRID_WIDTH SMALL_WIDTH ∧ 0 ≤ 1 < GRID_HEIGHT SMALL_HEIGHT ∧
  ∃ w' c c',
    update_game SMALL_WIDTH SMALL_HEIGHT blinker_world = Some w' ∧
    grid_get (current_grid blinker_world) 2 1 = Some c ∧ (c = ALIVE ∨ c = DEAD) ∧
    grid_get (current_grid w') 2 1 = Some c' ∧
    let n := live_neighbors SMALL_WIDTH SMALL_HEIGHT (current_grid blinker_world) 2 1 in
    (c = ALIVE → n < 2 ∨ n > 3 → c' = DEAD) ∧
    (c = ALIVE → n = 2 ∨ n = 3 → c' = ALIVE) ∧
    (c = DEAD → n = 3 → c' = ALIVE) ∧
    (c = DEAD → n ≠ 3 → c' = DEAD).
Proof.
  split; [compute_done|]. split; [compute_done|]. split; [compute_done|].
  apply (update_game_standard_rule SMALL_WIDTH SMALL_HEIGHT blinker_world 2 1);
    compute_done.
Defined.

Lemma count_neighbors_moore_witness :
  shape SMALL_WIDTH SMALL_HEIGHT (current_grid blinker_world) ∧
  binary (current_grid blinker_world) ∧
  0 ≤ 0 < GRID_WIDTH SMALL_WIDTH ∧ 0 ≤ 2 < GRID_HEIGHT SMALL_HEIGHT ∧
  ∃ n, count_neighbors SMALL_WIDTH SMALL_HEIGHT blinker_world 0 2 = Some n ∧ 0 ≤ n ≤ 8 ∧
       n = Z.of_nat (length (List.filter
                 (λ p, is_alive SMALL_WIDTH SMALL_HEIGHT (current_grid blinker_world) p.1 p.2)
                 (moore 0 2))) ∧
       ((0, 2) ∉ moore 0 2) ∧
       ∀ nx ny, ¬ (0 ≤ nx < GRID_WIDTH SMALL_WIDTH ∧ 0 ≤ ny < GRID_HEIGHT SMALL_HEIGHT) →
         is_alive SMALL_WIDTH SMALL_HEIGHT (current_grid blinker_world) nx ny = false.
Proof.
  split; [compute_done|]. split; [compute_done|].
  split; [compute_done|]. split; [compute_done|].
  apply (count_neighbors_moore SMALL_WIDTH SMALL_HEIGHT blinker_world 0 2);
    compute_done.
Defined.

Lemma load_pattern_clears_grid_witness :
  shape SMALL_WIDTH SMALL_HEIGHT (current_grid blinker_world) ∧
  0 ≤ 1 < len_patterns ∧
  ∃ p w0 w',
    patterns !! Z.to_nat 1 = Some p ∧
    clear_grid SMALL_WIDTH SMALL_HEIGHT blinker_world = Some w0 ∧
    (∀ x y, 0 ≤ x < GRID_WIDTH SMALL_WIDTH → 0 ≤ y < GRID_HEIGHT SMALL_HEIGHT →
       grid_get (current_grid w0) x y = Some DEAD) ∧
    load_pattern SMALL_WIDTH SMALL_HEIGHT alternating_draws 1 blinker_world = Some w' ∧
    shape SMALL_WIDTH SMALL_HEIGHT (current_grid w') ∧
    ∀ x y, 0 ≤ x < GRID_WIDTH SMALL_WIDTH → 0 ≤ y < GRID_HEIGHT SMALL_HEIGHT →
      grid_get (current_grid w') x y
        = Some (if stamped_by SMALL_WIDTH SMALL_HEIGHT alternating_draws p
                     (rand_calls blinker_world) x y
                then ALIVE else DEAD).
Proof.
  split; [compute_done|]. split; [compute_done|].
  apply (load_pattern_clears_grid SMALL_WIDTH SMALL_HEIGHT alternating_draws 1
           blinker_world); compute_done.
Defined.

Lemma load_pattern_clips_witness :
  shape SMALL_WIDTH SMALL_HEIGHT (current_grid blinker_world) ∧
  0 ≤ 1 ∧ patterns !! Z.to_nat 1 = Some acorn ∧
  name acorn ≠ "Random" ∧
  cells acorn = [] ++ (1, 0) :: [(3, 1); (0, 2); (1, 2); (4, 2); (5, 2); (6, 2)] ∧
  ¬ (0 ≤ (placement_offset SMALL_WIDTH SMALL_HEIGHT (name acorn)).1 + 1
       < GRID_WIDTH SMALL_WIDTH ∧
     0 ≤ (placement_offset SMALL_WIDTH SMALL_HEIGHT (name acorn)).2 + 0
       < GRID_HEIGHT SMALL_HEIGHT) ∧
  ∃ w0 w',
    clear_grid SMALL_WIDTH SMALL_HEIGHT blinker_world = Some w0 ∧
    load_pattern SMALL_WIDTH SMALL_HEIGHT alternating_draws 1 blinker_world = Some w' ∧
    stamp SMALL_WIDTH SMALL_HEIGHT
      (placement_offset SMALL_WIDTH SMALL_HEIGHT (name acorn)).1
      (placement_offset SMALL_WIDTH SMALL_HEIGHT (name acorn)).2
      ([] ++ [(3, 1); (0, 2); (1, 2); (4, 2); (5, 2); (6, 2)]) (current_grid w0)
      = Some (current_grid w') ∧
    shape SMALL_WIDTH SMALL_HEIGHT (current_grid w') ∧
    ∀ x y, 0 ≤ x < GRID_WIDTH SMALL_WIDTH → 0 ≤ y < GRID_HEIGHT SMALL_HEIGHT →
      grid_get (current_grid w') x y = Some ALIVE →
      ∃ cx cy, (cx, cy) ∈ cells acorn ∧
               x = (placement_offset SMALL_WIDTH SMALL_HEIGHT (name acorn)).1 + cx ∧
               y = (placement_offset SMALL_WIDTH SMALL_HEIGHT (name acorn)).2 + cy.
Proof.
  split; [compute_done|]. split; [compute_done|]. split; [reflexivity|].
  split; [compute_done|]. split; [reflexivity|]. split; [compute_done|].
  apply (load_pattern_clips SMALL_WIDTH SMALL_HEIGHT alternating_draws 1 acorn
           blinker_world [] [(3, 1); (0, 2); (1, 2); (4, 2); (5, 2); (6, 2)] 1 0);
    first [reflexivity | compute_done].
Defined.

Lemma load_pattern_placement_witness :
  shape SMALL_WIDTH SMALL_HEIGHT (current_grid blinker_world) ∧
  0 ≤ 1 ∧ patterns !! Z.to_nat 1 = Some acorn ∧
  name acorn ≠ "Random" ∧
  ∃ w' offset_x offset_y,
    load_pattern SMALL_WIDTH SMALL_HEIGHT alternating_draws 1 blinker_world = Some w' ∧
    (∀ x y, 0 ≤ x < GRID_WIDTH SMALL_WIDTH → 0 ≤ y < GRID_HEIGHT SMALL_HEIGHT →
       grid_get (current_grid w') x y
         = Some (if bool_decide ((x - offset_x, y - offset_y) ∈ cells acorn)
                 then ALIVE else DEAD)) ∧
    (name acorn = "Glider Gun" → offset_x = 5 ∧ offset_y = 2) ∧
    (name acorn = "Pulsar" →
       offset_x = GRID_WIDTH SMALL_WIDTH `div` 2 - 6 ∧
       offset_y = GRID_HEIGHT SMALL_HEIGHT `div` 2 - 6) ∧
    (name acorn = "10-cell row" →
       offset_x = GRID_WIDTH SMALL_WIDTH `div` 2 - 5 ∧
       offset_y = GRID_HEIGHT SMALL_HEIGHT `div` 3) ∧
    (name acorn ≠ "Glider Gun" → name acorn ≠ "Pulsar" → name acorn ≠ "10-cell row" →
       offset_x = GRID_WIDTH SMALL_WIDTH `div` 2 - 3 ∧
       offset_y = GRID_HEIGHT SMALL_HEIGHT `div` 2 - 3).
Proof.
  split; [compute_done|]. split; [compute_done|]. split; [reflexivity|].
  split; [compute_done|].
  apply (load_pattern_placement SMALL_WIDTH SMALL_HEIGHT alternating_draws 1 acorn
           blinker_world); first [reflexivity | compute_done].
Defined.

Lemma pattern_buttons_cycle_witness :
  shape SMALL_WIDTH SMALL_HEIGHT (current_grid blinker_world) ∧
  0 ≤ pattern (state blinker_world) < len_patterns ∧
  (∃ w' p,
     dispatch_button SMALL_WIDTH SMALL_HEIGHT alternating_draws button_c blinker_world
       = Some w' ∧
     pattern (state w') = (pattern (state blinker_world) + 1) `mod` len_patterns ∧
     generation (state w') = 0 ∧
     patterns !! Z.to_nat (pattern (state w')) = Some p ∧
     ∀ x y, 0 ≤ x < GRID_WIDTH SMALL_WIDTH → 0 ≤ y < GRID_HEIGHT SMALL_HEIGHT →
       grid_get (current_grid w') x y
         = Some (if stamped_by SMALL_WIDTH SMALL_HEIGHT alternating_draws p
                      (rand_calls blinker_world) x y
                 then ALIVE else DEAD)) ∧
  (∃ w' p,
     dispatch_button SMALL_WIDTH SMALL_HEIGHT alternating_draws button_a blinker_world
       = Some w' ∧
     pattern (state w') = (pattern (state blinker_world) - 1) `mod` len_patterns ∧
     generation (state w') = 0 ∧
     patterns !! Z.to_nat (pattern (state w')) = Some p ∧
     ∀ x y, 0 ≤ x < GRID_WIDTH SMALL_WIDTH → 0 ≤ y < GRID_HEIGHT SMALL_HEIGHT →
       grid_get (current_grid w') x y
         = Some (if stamped_by SMALL_WIDTH SMALL_HEIGHT alternating_draws p
                      (rand_calls blinker_world) x y
                 then ALIVE else DEAD)).
Proof.
  split; [compute_done|]. split; [compute_done|].
  apply (pattern_buttons_cycle SMALL_WIDTH SMALL_HEIGHT alternating_draws
           blinker_world); compute_done.
Defined.

Lemma random_fill_threshold_witness :
  shape SMALL_WIDTH SMALL_HEIGHT (current_grid blinker_world) ∧
  0 ≤ 8 ∧ patterns !! Z.to_nat 8 = Some random_marker ∧
  name random_marker = "Random" ∧
  ∃ w',
    load_pattern SMALL_WIDTH SMALL_HEIGHT alternating_draws 8 blinker_world = Some w' ∧
    rand_calls w' = (rand_calls blinker_world
                     + Z.to_nat (GRID_HEIGHT SMALL_HEIGHT)
                       * Z.to_nat (GRID_WIDTH SMALL_WIDTH))%nat ∧
    ∀ x y, 0 ≤ x < GRID_WIDTH SMALL_WIDTH → 0 ≤ y < GRID_HEIGHT SMALL_HEIGHT →
      let k := (rand_calls blinker_world
                + Z.to_nat (y * GRID_WIDTH SMALL_WIDTH + x))%nat in
      (rand_calls blinker_world ≤ k < rand_calls w')%nat ∧
      (∀ x' y', 0 ≤ x' < GRID_WIDTH SMALL_WIDTH → 0 ≤ y' < GRID_HEIGHT SMALL_HEIGHT →
         (rand_calls blinker_world
          + Z.to_nat (y' * GRID_WIDTH SMALL_WIDTH + x'))%nat = k → x' = x ∧ y' = y) ∧
      grid_get (current_grid w') x y
        = Some (if PrimFloat.ltb (alternating_draws k) 0.4%float then ALIVE else DEAD).
Proof.
  split; [compute_done|]. split; [compute_done|]. split; [reflexivity|].
  split; [reflexivity|].
  apply (random_fill_threshold SMALL_WIDTH SMALL_HEIGHT alternating_draws 8
           random_marker blinker_world); first [reflexivity | compute_done].
Defined.

Lemma load_pattern_frame_witness :
  load_pattern SMALL_WIDTH SMALL_HEIGHT alternating_draws 1 blinker_world
    = Some acorn_world ∧
  paused (state acorn_world) = paused (state blinker_world) ∧
  pattern (state acorn_world) = pattern (state blinker_world) ∧
  generation (state acorn_world) = generation (state blinker_world) ∧
  next_grid acorn_world = next_grid blinker_world ∧
  storage acorn_world = storage blinker_world ∧
  ∀ w1, dispatch_button SMALL_WIDTH SMALL_HEIGHT alternating_draws button_down
          blinker_world = Some w1 →
        state w1 = set_generation 0 (state blinker_world).
Proof.
  split; [reflexivity|].
  apply (load_pattern_frame SMALL_WIDTH SMALL_HEIGHT alternating_draws 1
           blinker_world acorn_world).
  reflexivity.
Defined.

(** ** The further properties at concrete boards *)

Lemma load_pattern_index_range_witness :
  shape SMALL_WIDTH SMALL_HEIGHT (current_grid blinker_world) ∧
  (is_Some (load_pattern SMALL_WIDTH SMALL_HEIGHT alternating_draws (-1) blinker_world)
     ↔ -9 ≤ -1 < 9) ∧
  (-9 ≤ -1 < 0 →
     load_pattern SMALL_WIDTH SMALL_HEIGHT alternating_draws (-1) blinker_world
       = load_pattern SMALL_WIDTH SMALL_HEIGHT alternating_draws (-1 + 9) blinker_world).
Proof.
  split; [compute_done|].
  apply (load_pattern_index_range SMALL_WIDTH SMALL_HEIGHT alternating_draws (-1)
           blinker_world); compute_done.
Defined.

Lemma load_pattern_idempotent_witness :
  shape SMALL_WIDTH SMALL_HEIGHT (current_grid blinker_world) ∧
  shape SMALL_WIDTH SMALL_HEIGHT (current_grid dead_world) ∧
  getitem patterns 1 = Some acorn ∧ name acorn ≠ "Random" ∧
  ∃ w1' w2',
    load_pattern SMALL_WIDTH SMALL_HEIGHT alternating_draws 1 blinker_world = Some w1' ∧
    load_pattern SMALL_WIDTH SMALL_HEIGHT alternating_draws 1 dead_world = Some w2' ∧
    current_grid w1' = current_grid w2' ∧
    rand_calls w1' = rand_calls blinker_world ∧
    load_pattern SMALL_WIDTH SMALL_HEIGHT alternating_draws 1 w1' = Some w1'.
Proof.
  split; [compute_done|]. split; [compute_done|]. split; [reflexivity|].
  split; [compute_done|].
  apply (load_pattern_idempotent SMALL_WIDTH SMALL_HEIGHT alternating_draws 1 acorn
           blinker_world dead_world); first [reflexivity | compute_done].
Defined.

Lemma load_pattern_fits_witness :
  41 ≤ GRID_WIDTH BADGER_WIDTH ∧ 13 ≤ GRID_HEIGHT BADGER_HEIGHT ∧
  shape BADGER_WIDTH BADGER_HEIGHT (current_grid device_world) ∧
  getitem patterns 0 = Some r_pentomino ∧ name r_pentomino ≠ "Random" ∧
  (1, 2) ∈ cells r_pentomino ∧
  ∃ w', load_pattern BADGER_WIDTH BADGER_HEIGHT alternating_draws 0 device_world
          = Some w' ∧
        0 ≤ (placement_offset BADGER_WIDTH BADGER_HEIGHT (name r_pentomino)).1 + 1
          < GRID_WIDTH BADGER_WIDTH ∧
        0 ≤ (placement_offset BADGER_WIDTH BADGER_HEIGHT (name r_pentomino)).2 + 2
          < GRID_HEIGHT BADGER_HEIGHT ∧
        grid_get (current_grid w')
          ((placement_offset BADGER_WIDTH BADGER_HEIGHT (name r_pentomino)).1 + 1)
          ((placement_offset BADGER_WIDTH BADGER_HEIGHT (name r_pentomino)).2 + 2)
          = Some ALIVE.
Proof.
  split; [compute_done|]. split; [compute_done|]. split; [compute_done|].
  split; [reflexivity|]. split; [compute_done|]. split; [compute_done|].
  apply (load_pattern_fits BADGER_WIDTH BADGER_HEIGHT alternating_draws 0 r_pentomino
           device_world 1 2); first [reflexivity | compute_done].
Defined.

Lemma update_game_dead_grid_witness :
  shape SMALL_WIDTH SMALL_HEIGHT (current_grid dead_world) ∧
  shape SMALL_WIDTH SMALL_HEIGHT (next_grid dead_world) ∧
  (∀ x y, 0 ≤ x < GRID_WIDTH SMALL_WIDTH → 0 ≤ y < GRID_HEIGHT SMALL_HEIGHT →
     grid_get (current_grid dead_world) x y = Some DEAD) ∧
  ∃ w', update_game SMALL_WIDTH SMALL_HEIGHT dead_world = Some w' ∧
        current_grid w' = current_grid dead_world.
Proof.
  assert (Hdead : ∀ x y, 0 ≤ x < GRID_WIDTH SMALL_WIDTH →
            0 ≤ y < GRID_HEIGHT SMALL_HEIGHT →
            grid_get (current_grid dead_world) x y = Some DEAD).
  { intros x y Hx Hy.
    change (GRID_WIDTH SMALL_WIDTH) with 5 in Hx.
    change (GRID_HEIGHT SMALL_HEIGHT) with 5 in Hy.
    assert (x = 0 ∨ x = 1 ∨ x = 2 ∨ x = 3 ∨ x = 4) as Hxs by lia.
    assert (y = 0 ∨ y = 1 ∨ y = 2 ∨ y = 3 ∨ y = 4) as Hys by lia.
    destruct Hxs as [-> | [-> | [-> | [-> | ->]]]];
      destruct Hys as [-> | [-> | [-> | [-> | ->]]]]; reflexivity. }
  split; [compute_done|]. split; [compute_done|]. split; [exact Hdead|].
  apply (update_game_dead_grid SMALL_WIDTH SMALL_HEIGHT dead_world);
    first [exact Hdead | compute_done].
Defined.

Lemma update_game_local_witness :
  wf SMALL_WIDTH SMALL_HEIGHT blinker_world ∧
  wf SMALL_WIDTH SMALL_HEIGHT acorn_world ∧
  0 ≤ 0 < GRID_WIDTH SMALL_WIDTH ∧ 0 ≤ 4 < GRID_HEIGHT SMALL_HEIGHT ∧
  (∀ nx ny, 0 - 1 ≤ nx ≤ 0 + 1 → 4 - 1 ≤ ny ≤ 4 + 1 →
     0 ≤ nx < GRID_WIDTH SMALL_WIDTH → 0 ≤ ny < GRID_HEIGHT SMALL_HEIGHT →
     grid_get (current_grid blinker_world) nx ny
       = grid_get (current_grid acorn_world) nx ny) ∧
  ∃ w1' w2',
    update_game SMALL_WIDTH SMALL_HEIGHT blinker_world = Some w1' ∧
    update_game SMALL_WIDTH SMALL_HEIGHT acorn_world = Some w2' ∧
    grid_get (current_grid w1') 0 4 = grid_get (current_grid w2') 0 4.
Proof.
  assert (Hagree : ∀ nx ny, 0 - 1 ≤ nx ≤ 0 + 1 → 4 - 1 ≤ ny ≤ 4 + 1 →
            0 ≤ nx < GRID_WIDTH SMALL_WIDTH → 0 ≤ ny < GRID_HEIGHT SMALL_HEIGHT →
            grid_get (current_grid blinker_world) nx ny
              = grid_get (current_grid acorn_world) nx ny).
  { intros nx ny Hnx Hny Hx Hy.
    change (GRID_HEIGHT SMALL_HEIGHT) with 5 in Hy.
    assert (nx = 0 ∨ nx = 1) as Hxs by lia.
    assert (ny = 3 ∨ ny = 4) as Hys by lia.
    destruct Hxs as [-> | ->]; destruct Hys as [-> | ->]; reflexivity. }
  split; [compute_done|]. split; [compute_done|]. split; [compute_done|].
  split; [compute_done|]. split; [exact Hagree|].
  apply (update_game_local SMALL_WIDTH SMALL_HEIGHT blinker_world acorn_world 0 4);
    first [exact Hagree | compute_done].
Defined.

Lemma update_game_scratch_witness :
  wf SMALL_WIDTH SMALL_HEIGHT blinker_world ∧
  shape SMALL_WIDTH SMALL_HEIGHT horizontal_blinker ∧
  ∃ w1 w2,
    update_game SMALL_WIDTH SMALL_HEIGHT blinker_world = Some w1 ∧
    update_game SMALL_WIDTH SMALL_HEIGHT
      {| state := state blinker_world; current_grid := current_grid blinker_world;
         next_grid := horizontal_blinker; rand_calls := rand_calls blinker_world;
         storage := storage blinker_world |} = Some w2 ∧
    w1 = w2 ∧ next_grid w1 = current_grid blinker_world.
Proof.
  split; [compute_done|]. split; [compute_done|].
  apply (update_game_scratch SMALL_WIDTH SMALL_HEIGHT blinker_world horizontal_blinker);
    compute_done.
Defined.

Lemma count_neighbors_border_witness :
  shape SMALL_WIDTH SMALL_HEIGHT (current_grid blinker_world) ∧
  binary (current_grid blinker_world) ∧
  0 ≤ 0 < GRID_WIDTH SMALL_WIDTH ∧ 0 ≤ 2 < GRID_HEIGHT SMALL_HEIGHT ∧
  ∃ n, count_neighbors SMALL_WIDTH SMALL_HEIGHT blinker_world 0 2 = Some n ∧
       (0 = 0 ∨ 0 = GRID_WIDTH SMALL_WIDTH - 1 ∨ 2 = 0 ∨ 2 = GRID_HEIGHT SMALL_HEIGHT - 1
        → n ≤ 5) ∧
       ((0 = 0 ∨ 0 = GRID_WIDTH SMALL_WIDTH - 1) ∧
        (2 = 0 ∨ 2 = GRID_HEIGHT SMALL_HEIGHT - 1) → n ≤ 3).
Proof.
  split; [compute_done|]. split; [compute_done|].
  split; [compute_done|]. split; [compute_done|].
  apply (count_neighbors_border SMALL_WIDTH SMALL_HEIGHT blinker_world 0 2);
    compute_done.
Defined.

Lemma draw_grid_live_cells_witness :
  shape SMALL_WIDTH SMALL_HEIGHT (current_grid blinker_world) ∧
  -9 ≤ pattern (state blinker_world) < 9 ∧
  ∃ drawn ui,
    draw_ui SMALL_WIDTH six_per_char blinker_world = Some ui ∧
    draw_grid SMALL_WIDTH SMALL_HEIGHT six_per_char blinker_world
      = Some ([display_set_pen 15; display_clear; display_set_pen 0]
              ++ ((λ c, display_rectangle (c.1 * 4) (c.2 * 4 + 25) 3 3) <$> drawn)
              ++ ui ++ [display_update]) ∧
    NoDup drawn ∧
    ∀ x y, (x, y) ∈ drawn ↔
           0 ≤ x < GRID_WIDTH SMALL_WIDTH ∧ 0 ≤ y < GRID_HEIGHT SMALL_HEIGHT ∧
           grid_get (current_grid blinker_world) x y = Some ALIVE.
Proof.
  split; [compute_done|]. split; [compute_done|].
  apply (draw_grid_live_cells SMALL_WIDTH SMALL_HEIGHT six_per_char blinker_world);
    compute_done.
Defined.

Lemma draw_grid_squares_witness :
  shape SMALL_WIDTH SMALL_HEIGHT (current_grid blinker_world) ∧
  -9 ≤ pattern (state blinker_world) < 9 ∧
  ∃ squares ui,
    draw_ui SMALL_WIDTH six_per_char blinker_world = Some ui ∧
    draw_grid SMALL_WIDTH SMALL_HEIGHT six_per_char blinker_world
      = Some ([display_set_pen 15; display_clear; display_set_pen 0]
              ++ squares ++ ui ++ [display_update]) ∧
    (∀ i op, squares !! i = Some op →
       ∃ px py, op = display_rectangle px py 3 3 ∧
                0 ≤ px ∧ px + 3 ≤ SMALL_WIDTH ∧ UI_HEIGHT ≤ py ∧ py + 3 ≤ SMALL_HEIGHT) ∧
    (∀ i j px py qx qy, i ≠ j →
       squares !! i = Some (display_rectangle px py 3 3) →
       squares !! j = Some (display_rectangle qx qy 3 3) →
       px + 3 < qx ∨ qx + 3 < px ∨ py + 3 < qy ∨ qy + 3 < py).
Proof.
  split; [compute_done|]. split; [compute_done|].
  apply (draw_grid_squares SMALL_WIDTH SMALL_HEIGHT six_per_char blinker_world);
    compute_done.
Defined.

Lemma draw_ui_pause_indicator_witness :
  draw_ui BADGER_WIDTH six_per_char device_world = Some device_status_bar ∧
  let pause_width := six_per_char "PAUSED" 0.8%float in
  if paused (state device_world) then
    ∃ bar box_x,
      device_status_bar
        = bar ++ [ display_set_pen 12;
                   display_rectangle box_x 2 (pause_width + 4) 20;
                   display_set_pen 0;
                   display_text "PAUSED" (box_x + 2) 15 BADGER_WIDTH 0.8%float ] ∧
      0 ≤ (BADGER_WIDTH - (box_x + (pause_width + 4))) - box_x ≤ 1
  else display_set_pen 12 ∉ device_status_bar.
Proof.
  split; [reflexivity|].
  apply (draw_ui_pause_indicator BADGER_WIDTH six_per_char device_world
           device_status_bar).
  reflexivity.
Defined.

Lemma main_loop_safe_witness :
  (∀ saved, @None State = Some saved → -9 ≤ pattern saved) ∧
  ∃ w0 w,
    startup SMALL_WIDTH SMALL_HEIGHT alternating_draws None = Some w0 ∧
    main_loop SMALL_WIDTH SMALL_HEIGHT alternating_draws
      [ (Some button_up, false); (Some button_b, false); (None, true);
        (Some button_a, true); (Some button_down, false) ] w0 = Some w ∧
    wf SMALL_WIDTH SMALL_HEIGHT w ∧ -9 ≤ pattern (state w) < 9 ∧
    is_Some (draw_grid SMALL_WIDTH SMALL_HEIGHT six_per_char w).
Proof.
  split; [intros saved Hsaved; discriminate Hsaved|].
  apply (main_loop_safe SMALL_WIDTH SMALL_HEIGHT alternating_draws six_per_char None).
  intros saved Hsaved. discriminate Hsaved.
Defined.

Lemma next_previous_round_trip_witness :
  shape SMALL_WIDTH SMALL_HEIGHT (current_grid blinker_world) ∧
  0 ≤ pattern (state blinker_world) < 9 ∧
  patterns !! Z.to_nat (pattern (state blinker_world)) = Some acorn ∧
  name acorn ≠ "Random" ∧
  ∃ w_reset w_ca w_ac,
    dispatch_button SMALL_WIDTH SMALL_HEIGHT alternating_draws button_down
      blinker_world = Some w_reset ∧
    dispatch_button SMALL_WIDTH SMALL_HEIGHT alternating_draws button_c blinker_world
      ≫= dispatch_button SMALL_WIDTH SMALL_HEIGHT alternating_draws button_a
      = Some w_ca ∧
    dispatch_button SMALL_WIDTH SMALL_HEIGHT alternating_draws button_a blinker_world
      ≫= dispatch_button SMALL_WIDTH SMALL_HEIGHT alternating_draws button_c
      = Some w_ac ∧
    state w_ca = state w_reset ∧ current_grid w_ca = current_grid w_reset ∧
    state w_ac = state w_reset ∧ current_grid w_ac = current_grid w_reset.
Proof.
  split; [compute_done|]. split; [compute_done|]. split; [reflexivity|].
  split; [compute_done|].
  apply (next_previous_round_trip SMALL_WIDTH SMALL_HEIGHT alternating_draws
           blinker_world acorn); first [reflexivity | compute_done].
Defined.

Lemma restart_after_press_witness :
  wf SMALL_WIDTH SMALL_HEIGHT blinker_world ∧
  0 ≤ pattern (state blinker_world) < 9 ∧
  dispatch_button SMALL_WIDTH SMALL_HEIGHT alternating_draws button_up blinker_world
    = Some blinker_world_saved ∧
  ∃ w2 p,
    startup SMALL_WIDTH SMALL_HEIGHT alternating_draws (storage blinker_world_saved)
      = Some w2 ∧
    state w2 = state blinker_world_saved ∧
    storage w2 = storage blinker_world_saved ∧
    patterns !! Z.to_nat (pattern (state blinker_world_saved)) = Some p ∧
    ∀ x y, 0 ≤ x < GRID_WIDTH SMALL_WIDTH → 0 ≤ y < GRID_HEIGHT SMALL_HEIGHT →
      grid_get (current_grid w2) x y
        = Some (if stamped_by SMALL_WIDTH SMALL_HEIGHT alternating_draws p 0 x y
                then ALIVE else DEAD).
Proof.
  split; [compute_done|]. split; [compute_done|]. split; [reflexivity|].
  apply (restart_after_press SMALL_WIDTH SMALL_HEIGHT alternating_draws button_up
           blinker_world blinker_world_saved); first [reflexivity | compute_done].
Defined.
